(** * Resolution sniping bot (src/main.py): model and verified properties

    A shallow embedding of the market-monitoring pipeline of [src/main.py]:
    the quote client [get_prices], the spike detector [detect_spike], the
    winner resolver [determine_winner], the bounded price history
    [update_history], order sizing [compute_order_quantity], the order
    submitter [submit_order] and one iteration of the [monitor_market] loop.

    Modelling conventions.
    - A finite [decimal.Decimal] is its rational value ([Q]).  Arithmetic
      follows the default context of the [decimal] module: the exact result
      of [+], [-] and [/] is rounded to [prec = 28] significant digits, ties
      to even; comparisons are exact.  NaN, infinities and the exponent
      limits of the context are outside the model.
    - A timestamp ([time.time()], a float) is a rational number of seconds
      and differences of timestamps are exact.
    - A Python [dict] with string keys is a [gmap string _].
    - A function that can raise returns a [result]; network I/O and the
      clock are explicit inputs, and requests and sleeps are logged in a
      trace of [event]s. *)

From Stdlib Require Import ZArith QArith Qround Qabs Qpower Lia Lqa List Bool Sorted.
From stdpp Require Import gmap strings list.
Import ListNotations.

Local Open Scope Q_scope.

(** ** Constants of the module *)

Definition HISTORY_WINDOW_SECONDS : Q := 10.
Definition HISTORY_BUFFER_SIZE : nat := 50.
Definition MAX_RETRIES : nat := 3.
Definition POLL_INTERVAL_SECONDS : Q := 2 # 10.

(** ** Exceptions and results *)

Inductive exn : Type :=
| ValueError (msg : string)
| KeyError (key : string)
| RuntimeError (msg : string)
| InvalidOperation
| OtherError.

Inductive result (A : Type) : Type :=
| Return (a : A)
| Raise (e : exn).

Arguments Return {A} a.
Arguments Raise {A} e.

(** Sequencing stops at the first exception: [x ← r; k]. *)
#[global] Instance result_ret : MRet result := fun A a => Return a.
#[global] Instance result_bind : MBind result := fun A B k r =>
  match r with
  | Return a => k a
  | Raise e => Raise e
  end.

(** ** Decimal arithmetic in the default context *)

Module Dec.

(** Precision of [decimal.getcontext()] (never changed by the program). *)
Definition prec : Z := 28.

(** ROUND_HALF_EVEN of a rational to an integer. *)
Definition round_half_even (x : Q) : Z :=
  let f := Qfloor x in
  match Qcompare (x - inject_Z f) (1 # 2) with
  | Lt => f
  | Gt => (f + 1)%Z
  | Eq => if Z.even f then f else (f + 1)%Z
  end.

(** Downward search for the largest exponent [e] with [10^e <= x]. *)
Fixpoint find_exp (fuel : nat) (e : Z) (x : Q) : Z :=
  match fuel with
  | O => e
  | S fuel' =>
      if Qle_bool (10 ^ e) x then e else find_exp fuel' (e - 1)%Z x
  end.

(** [Decimal.adjusted()]: the exponent of the most significant digit,
    [floor (log10 |x|)], for [x <> 0]. *)
Definition adjusted (x : Q) : Z :=
  let hi := (Z.log2 (Z.abs (Qnum x)) + 1)%Z in
  let lo := (- (Z.log2 (Zpos (Qden x)) + 1))%Z in
  find_exp (Z.to_nat (hi - lo)) hi (Qabs x).

(** Rounding of an exact result to [prec] significant digits. *)
Definition ctx_round (x : Q) : Q :=
  if Qeq_bool x 0 then 0
  else
    let e := (adjusted x - (prec - 1))%Z in
    inject_Z (round_half_even (x / 10 ^ e)) * 10 ^ e.

Definition sub (a b : Q) : Q := ctx_round (a - b).
Definition add (a b : Q) : Q := ctx_round (a + b).
Definition div (a b : Q) : Q := ctx_round (a / b).

Definition le (a b : Q) : bool := Qle_bool a b.
Definition ge (a b : Q) : bool := Qle_bool b a.
Definition min (a b : Q) : Q := if Qle_bool a b then a else b.

(** [d.quantize(Decimal("0.0001"))] with the context's rounding: the
    nearest multiple of [0.0001], ties to even.  The operation raises
    [InvalidOperation] when the coefficient of the result would need
    more than [prec] digits. *)
Definition quantize4 (d : Q) : result Q :=
  let c := round_half_even (d * 10000) in
  if (Z.abs c <? 10 ^ prec)%Z then Return (inject_Z c / 10000)
  else Raise InvalidOperation.

End Dec.

(** ** Spike detector *)

(** A price sample [(timestamp, yes_price, no_price)]. *)
Definition sample : Type := Q * Q * Q.

Definition ts (p : sample) : Q := fst (fst p).
Definition yes_of (p : sample) : Q := snd (fst p).
Definition no_of (p : sample) : Q := snd p.

(** [now - point[0] <= HISTORY_WINDOW_SECONDS] *)
Definition in_window (now : Q) (p : sample) : bool :=
  Qle_bool (now - ts p) HISTORY_WINDOW_SECONDS.

Definition detect_spike (history : list sample) (now winning_price : Q)
    (winner_is_yes : bool) (spike_threshold : Q) : bool :=
  let recent := List.filter (in_window now) history in
  if (length recent <? 2)%nat then false
  else
    match recent with
    | [] => false
    | first :: _ =>
        let baseline_price := if winner_is_yes then yes_of first else no_of first in
        if Dec.le baseline_price 0 then false
        else
          let increase := Dec.div (Dec.sub winning_price baseline_price) baseline_price in
          Dec.ge increase spike_threshold
    end.

(** ** Order sizing *)

Definition compute_order_quantity (amount_usdc target_price : Q) : result Q :=
  if Dec.le target_price 0 then Raise (ValueError "target_price must be positive")
  else
    let shares := Dec.div amount_usdc target_price in
    Dec.quantize4 shares.

(** ** Markets and settings *)

Record Market : Type := {
  condition_id : string;
  yes_token : string;
  no_token : string;
  name : string;
  price_history : list sample;
  last_snipe_ts : Q
}.

Record Settings : Type := {
  price_threshold : Q;
  spike_threshold : Q;
  max_slippage : Q;
  snipe_amount_usdc : Q;
  dry_run : bool
}.

Definition set_price_history (m : Market) (h : list sample) : Market :=
  {| condition_id := condition_id m; yes_token := yes_token m;
     no_token := no_token m; name := name m;
     price_history := h; last_snipe_ts := last_snipe_ts m |}.

Definition set_last_snipe_ts (m : Market) (t : Q) : Market :=
  {| condition_id := condition_id m; yes_token := yes_token m;
     no_token := no_token m; name := name m;
     price_history := price_history m; last_snipe_ts := t |}.

(** [prices[key]]: a missing key raises [KeyError]. *)
Definition getitem (prices : gmap string Q) (key : string) : result Q :=
  match prices !! key with
  | Some v => Return v
  | None => Raise (KeyError key)
  end.

(** ** Winner resolver *)

Definition determine_winner (prices : gmap string Q) (market : Market)
    : result (string * Q * bool) :=
  yes_price ← getitem prices (yes_token market);
  no_price ← getitem prices (no_token market);
  if Dec.ge yes_price no_price
  then Return (yes_token market, yes_price, true)
  else Return (no_token market, no_price, false).

(** ** Price history *)

(** [history.append(s)] followed by the truncation
    [history[:] = history[-HISTORY_BUFFER_SIZE:]] when the buffer grew past
    its capacity. *)
Definition append_bounded (history : list sample) (s : sample) : list sample :=
  let appended := history ++ [s] in
  if (HISTORY_BUFFER_SIZE <? length appended)%nat
  then skipn (length appended - HISTORY_BUFFER_SIZE) appended
  else appended.

(** [now] is the reading of [time.time()] taken by the call. *)
Definition update_history (market : Market) (prices : gmap string Q) (now : Q)
    : result Market :=
  yes_price ← getitem prices (yes_token market);
  no_price ← getitem prices (no_token market);
  Return (set_price_history market
            (append_bounded (price_history market) (now, yes_price, no_price))).

(** ** Network I/O *)

(** What one [session.post] attempt does. *)
Inductive outcome (B : Type) : Type :=
| Status429                (* resp.status == 429 *)
| ClientFailure            (* aiohttp.ClientError or asyncio.TimeoutError,
                              raised by the request, by raise_for_status or
                              by resp.json() *)
| Body (raw : B)           (* success: resp.json() returned [raw] *)
| Escapes (e : exn).       (* an exception of any other class *)

Arguments Status429 {B}.
Arguments ClientFailure {B}.
Arguments Body {B} raw.
Arguments Escapes {B} e.

Inductive event : Type :=
| Post (endpoint : string)
| Sleep (seconds : Q)
| SnipeBuy (token_id : string) (winning_price : Q) (last_snipe_at_call : Q).

(** [min(2 ** attempt, 5)] *)
Definition backoff (attempt : nat) : Q :=
  inject_Z (Z.min (2 ^ Z.of_nat attempt) 5).

(** ** Quote client *)

(** The value under ["price"] after [Decimal(str(...))]: a finite decimal,
    or a conversion that raises [decimal.InvalidOperation]. *)
Inductive price_field : Type :=
| Numeric (d : Q)
| NonNumeric.

(** One JSON object of the [/prices] response; [None] is an absent key. *)
Record entry : Type := {
  entry_token_id : option string;
  entry_price : option price_field
}.

(** The dictionary comprehension of [get_prices]: entries are visited in
    order, entries lacking a key are skipped, a later entry overwrites an
    earlier one with the same token id. *)
Fixpoint collect_prices (raw : list entry) (acc : gmap string Q)
    : result (gmap string Q) :=
  match raw with
  | [] => Return acc
  | e :: rest =>
      match entry_token_id e, entry_price e with
      | Some tok, Some (Numeric d) => collect_prices rest (<[tok := d]> acc)
      | Some _, Some NonNumeric => Raise InvalidOperation
      | _, _ => collect_prices rest acc
      end
  end.

(** The second [try] block of [get_prices]. *)
Definition parse_prices (market : Market) (raw : list entry)
    : result (option (gmap string Q)) :=
  let parsed :=
    prices ← collect_prices raw ∅;
    if bool_decide (is_Some (prices !! yes_token market))
       && bool_decide (is_Some (prices !! no_token market))
    then Return prices
    else Raise (KeyError "Missing token IDs in response") in
  match parsed with
  | Return prices => Return (Some prices)
  | Raise (KeyError _) | Raise (ValueError _) => Return None
  | Raise e => Raise e
  end.

(** The body of [for attempt in range(MAX_RETRIES)]; [responses attempt]
    is what the request of that attempt does. *)
Fixpoint get_prices_loop (attempts : list nat)
    (responses : nat -> outcome (list entry)) (market : Market)
    : result (option (gmap string Q)) * list event :=
  match attempts with
  | [] => (Return None, [])
  | attempt :: rest =>
      match responses attempt with
      | Status429 =>
          let '(r, tr) := get_prices_loop rest responses market in
          (r, Post "/prices" :: Sleep (5 # 10) :: tr)
      | ClientFailure =>
          let '(r, tr) := get_prices_loop rest responses market in
          (r, Post "/prices" :: Sleep (backoff attempt) :: tr)
      | Escapes e => (Raise e, [Post "/prices"])
      | Body raw => (parse_prices market raw, [Post "/prices"])
      end
  end.

Definition get_prices (responses : nat -> outcome (list entry)) (market : Market)
    : result (option (gmap string Q)) * list event :=
  get_prices_loop (seq 0 MAX_RETRIES) responses market.

(** ** Order submitter *)

Section Submit.

(** The signed payload posted to [/orders] and the JSON receipt that
    the endpoint answers with. *)
Context {signed_order receipt : Type}.

Fixpoint submit_order_loop (attempts : list nat)
    (responses : nat -> outcome receipt) : result receipt * list event :=
  match attempts with
  | [] => (Raise (RuntimeError "Failed to submit order after retries"), [])
  | attempt :: rest =>
      match responses attempt with
      | Status429 =>
          let '(r, tr) := submit_order_loop rest responses in
          (r, Post "/orders" :: Sleep (3 # 10) :: tr)
      | ClientFailure =>
          let '(r, tr) := submit_order_loop rest responses in
          (r, Post "/orders" :: Sleep (backoff attempt) :: tr)
      | Escapes e => (Raise e, [Post "/orders"])
      | Body raw => (Return raw, [Post "/orders"])
      end
  end.

Definition submit_order (order : signed_order)
    (responses : nat -> outcome receipt) : result receipt * list event :=
  submit_order_loop (seq 0 MAX_RETRIES) responses.

End Submit.

(** ** Snipe execution and the monitor loop *)

(** The fields handed to the external [OrderBuilder]. *)
Record order_request : Type := {
  order_token_id : string;
  order_price : Q;
  order_size : Q;
  order_max_slippage : Q
}.

(** [a < b] on timestamps. *)
Definition Qlt_bool (a b : Q) : bool := negb (Qle_bool b a).

Section Monitor.

Context {signed_order receipt : Type}.

(** Everything one iteration of the loop reads from the outside world. *)
Record poll_io : Type := {
  quotes : nat -> outcome (list entry);      (* the /prices endpoint *)
  clock_history : Q;                         (* time.time() in update_history *)
  clock_now : Q;                             (* time.time() in the loop body *)
  builder : order_request -> result signed_order;  (* OrderBuilder(...).build() *)
  orders : nat -> outcome receipt            (* the /orders endpoint *)
}.

Definition snipe_buy (market : Market) (token_id : string) (winning_price : Q)
    (settings : Settings) (io : poll_io) : result unit * list event :=
  let target_price := Dec.min (9999 # 10000) (Dec.add winning_price (1 # 1000)) in
  match compute_order_quantity (snipe_amount_usdc settings) target_price with
  | Raise e => (Raise e, [])
  | Return size =>
      if dry_run settings then (Return tt, [])
      else
        match builder io {| order_token_id := token_id;
                            order_price := target_price;
                            order_size := size;
                            order_max_slippage := max_slippage settings |} with
        | Raise e => (Raise e, [])
        | Return order =>
            let '(r, tr) := submit_order order (orders io) in
            (_ ← r; Return tt, tr)
        end
  end.

(** One iteration of [while True] in [monitor_market].  [Raise] means the
    exception leaves the loop and ends the task; an exception of
    [snipe_buy] is caught and logged. *)
Definition monitor_step (settings : Settings) (market : Market) (io : poll_io)
    : result Market * list event :=
  let '(fetched, tr) := get_prices (quotes io) market in
  match fetched with
  | Raise e => (Raise e, tr)
  | Return None => (Return market, tr ++ [Sleep POLL_INTERVAL_SECONDS])
  | Return (Some prices) =>
      match update_history market prices (clock_history io) with
      | Raise e => (Raise e, tr)
      | Return market1 =>
          match determine_winner prices market1 with
          | Raise e => (Raise e, tr)
          | Return (winner_token, winner_price, winner_is_yes) =>
              let now := clock_now io in
              if Qlt_bool (now - last_snipe_ts market1) HISTORY_WINDOW_SECONDS
              then (Return market1, tr ++ [Sleep POLL_INTERVAL_SECONDS])
              else
                let has_spike :=
                  detect_spike (price_history market1) now winner_price
                    winner_is_yes (spike_threshold settings) in
                if Dec.ge winner_price (price_threshold settings) && has_spike
                then
                  let market2 := set_last_snipe_ts market1 now in
                  let '(_, tr_snipe) :=
                    snipe_buy market2 winner_token winner_price settings io in
                  (Return market2,
                   tr ++ SnipeBuy winner_token winner_price (last_snipe_ts market2)
                      :: tr_snipe ++ [Sleep POLL_INTERVAL_SECONDS])
                else (Return market1, tr ++ [Sleep POLL_INTERVAL_SECONDS])
          end
      end
  end.

(** The loop run over a finite sequence of polls. *)
Fixpoint monitor_market (settings : Settings) (market : Market)
    (polls : list poll_io) : result Market * list event :=
  match polls with
  | [] => (Return market, [])
  | io :: rest =>
      match monitor_step settings market io with
      | (Raise e, tr) => (Raise e, tr)
      | (Return market', tr) =>
          let '(r, tr') := monitor_market settings market' rest in
          (r, tr ++ tr')
      end
  end.

End Monitor.

(** The times at which [snipe_buy] was called, oldest first. *)
Definition snipe_times (tr : list event) : list Q :=
  omap (fun ev => match ev with SnipeBuy _ _ t => Some t | _ => None end) tr.

(** The requests sent to [endpoint]. *)
Definition posts_to (endpoint : string) (tr : list event) : nat :=
  length (List.filter (fun ev => match ev with
                                 | Post ep => bool_decide (ep = endpoint)
                                 | _ => false
                                 end) tr).

(** ** Balance guard *)

(** What [client.get_balances()] does.  The answer maps an asset to its
    fields; a field is kept as [Decimal(str(...))] makes of it. *)
Inductive balances_call : Type :=
| NoGetBalances                 (* AttributeError *)
| BalancesRaise (e : exn)       (* an exception of any other class *)
| Balances (b : gmap string (gmap string price_field)).

(** [balances.get("USDC", {}).get("available", 0)] *)
Definition available_usdc (b : gmap string (gmap string price_field))
    : price_field :=
  match b !! "USDC" with
  | Some account =>
      match account !! "available" with
      | Some v => v
      | None => Numeric 0
      end
  | None => Numeric 0
  end.

(** The message of the second [RuntimeError] is kept without the two
    amounts that the source formats into it. *)
Definition ensure_balance (call : balances_call) (minimum : Q) : result unit :=
  match call with
  | NoGetBalances =>
      Raise (RuntimeError
               "ClobClient.get_balances is unavailable. Upgrade py-clob-client >=0.1.0.")
  | BalancesRaise e => Raise e
  | Balances b =>
      match available_usdc b with
      | NonNumeric => Raise InvalidOperation
      | Numeric usdc_balance =>
          if Qlt_bool usdc_balance minimum
          then Raise (RuntimeError "Insufficient USDC balance.")
          else Return tt
      end
  end.

(** The minimum that [main] passes to [ensure_balance]:
    [settings.snipe_amount_usdc * Decimal("1.05")]. *)
Definition startup_minimum (snipe_amount_usdc : Q) : Q :=
  Dec.ctx_round (snipe_amount_usdc * (105 # 100)).

(** * Vocabulary of the statements *)

(** [r] is the integer nearest to [x], the even one at a tie. *)
Definition nearest_even (x : Q) (r : Z) : Prop :=
  inject_Z r - (1 # 2) <= x <= inject_Z r + (1 # 2)
  /\ (x == inject_Z r + (1 # 2) -> Z.even r = true)
  /\ (x == inject_Z r - (1 # 2) -> Z.even r = true).

(** The price of the currently winning side in a sample. *)
Definition side_price (winner_is_yes : bool) (p : sample) : Q :=
  if winner_is_yes then yes_of p else no_of p.

(** Samples in non-decreasing order of timestamp. *)
Definition time_ordered (history : list sample) : Prop :=
  StronglySorted (fun a b => ts a <= ts b) history.

(** A rate limit or a transient network error: the attempt is retried. *)
Definition transient {B : Type} (o : outcome B) : Prop :=
  o = Status429 \/ o = ClientFailure.

(** Both unchecked lookups of the callers succeed on [prices]. *)
Definition lookups_succeed (market : Market) (prices : gmap string Q) : Prop :=
  is_Some (prices !! yes_token market)
  /\ is_Some (prices !! no_token market)
  /\ (exists winner, determine_winner prices market = Return winner)
  /\ (forall now, exists market',
        update_history market prices now = Return market'
        /\ exists winner, determine_winner prices market' = Return winner).

(** The last [n] elements of a list: Python's [l[-n:]] for [n > 0]. *)
Definition last_n {A : Type} (n : nat) (l : list A) : list A :=
  skipn (length l - n) l.


(** The sample that a call of [update_history] appends. *)
Definition sample_taken (market : Market) (call : gmap string Q * Q)
    : option sample :=
  match fst call !! yes_token market, fst call !! no_token market with
  | Some yes_price, Some no_price => Some (snd call, yes_price, no_price)
  | _, _ => None
  end.


(** The decision of one iteration that obtained [prices]. *)
Definition fires (settings : Settings) (market1 : Market) (now : Q)
    (winner_price : Q) (winner_is_yes : bool) : bool :=
  Dec.ge winner_price (price_threshold settings)
  && detect_spike (price_history market1) now winner_price winner_is_yes
       (spike_threshold settings).

(** Successive snipes, the first one counted from [last], are at least
    [HISTORY_WINDOW_SECONDS] apart. *)
Fixpoint spaced (last : Q) (times : list Q) : Prop :=
  match times with
  | [] => True
  | t :: rest => HISTORY_WINDOW_SECONDS <= t - last /\ spaced t rest
  end.

(** What an iteration past the cooldown does with the two gates. *)
Definition gates_decide {signed_order receipt : Type}
    (settings : Settings) (market : Market)
    (io : @poll_io signed_order receipt) (market1 : Market)
    (winner_price : Q) (winner_is_yes : bool) : Prop :=
  let trace := snd (monitor_step settings market io) in
  let both_gates :=
    price_threshold settings <= winner_price
    /\ detect_spike (price_history market1) (clock_now io) winner_price
         winner_is_yes (spike_threshold settings) = true in
  (snipe_times trace = [clock_now io] <-> both_gates)
  /\ (snipe_times trace = [] <-> ~ both_gates)
  /\ (price_threshold settings == 97 # 100 -> winner_price == 96 # 100 ->
      snipe_times trace = [] /\ posts_to "/orders" trace = 0%nat).

(** Seconds slept in a trace. *)
Fixpoint sleeps (tr : list event) : Q :=
  match tr with
  | [] => 0
  | Sleep s :: rest => s + sleeps rest
  | _ :: rest => sleeps rest
  end.

(** An entry with both keys whose price does not convert. *)
Definition unconvertible (e : entry) : bool :=
  match entry_token_id e, entry_price e with
  | Some _, Some NonNumeric => true
  | _, _ => false
  end.

(** The price that [e] quotes for [token], if [e] has both keys. *)
Definition quote_for (token : string) (e : entry) : option Q :=
  match entry_token_id e, entry_price e with
  | Some t, Some (Numeric d) => if decide (t = token) then Some d else None
  | _, _ => None
  end.

(** The price of the last entry of the response that quotes [token]. *)
Fixpoint last_quote (token : string) (raw : list entry) : option Q :=
  match raw with
  | [] => None
  | e :: rest =>
      match last_quote token rest with
      | Some d => Some d
      | None => quote_for token e
      end
  end.


(** Clock readings that never go back, starting from [t]. *)
Fixpoint clock_ordered {signed_order receipt : Type} (t : Q)
    (polls : list (@poll_io signed_order receipt)) : Prop :=
  match polls with
  | [] => True
  | io :: rest => t <= clock_history io /\ clock_ordered (clock_history io) rest
  end.

(** No sample of the history is later than [t]. *)
Definition not_after (t : Q) (history : list sample) : Prop :=
  List.Forall (fun p => ts p <= t) history.

(** The sleeps of attempts that all fail transiently. *)
Fixpoint backoff_total (attempts : list nat) : Q :=
  match attempts with
  | [] => 0
  | attempt :: rest => backoff attempt + backoff_total rest
  end.

(** [min(Decimal("0.9999"), winning_price + Decimal("0.001"))], the target
    price of [snipe_buy]. *)
Definition target_price_of (winning_price : Q) : Q :=
  Dec.min (9999 # 10000) (Dec.add winning_price (1 # 1000)).

(** An amount up to which sizing cannot overflow the context: 10^20. *)
Definition LARGE_AMOUNT : Q := 100000000000000000000.

(** * Concrete markets, quotes and polls *)

Definition demo_market : Market :=
  {| condition_id := "0xc0ffee"; yes_token := "Y"; no_token := "N";
     name := "demo"; price_history := []; last_snipe_ts := 0 |}.

Definition tied_prices : gmap string Q :=
  <["Y" := 1 # 2]> (<["N" := 1 # 2]> ∅).

Definition quoted (token : string) (price : Q) : entry :=
  {| entry_token_id := Some token; entry_price := Some (Numeric price) |}.

Definition good_quotes : nat -> outcome (list entry) :=
  fun _ => Body [quoted "Y" (60 # 100); quoted "N" (40 # 100)].

Definition good_prices : gmap string Q :=
  <["N" := 40 # 100]> (<["Y" := 60 # 100]> ∅).

Definition always_limited {B : Type} : nat -> outcome B := fun _ => Status429.

Definition flaky {B : Type} : nat -> outcome B :=
  fun attempt => if Nat.even attempt then ClientFailure else Status429.

(** Three rate limits, then a well-formed answer.  *)
Definition limited_three_times (raw : list entry) : nat -> outcome (list entry) :=
  fun attempt => if (attempt <? 3)%nat then Status429 else Body raw.




(** Scenario C: threshold 0.97, the yes side at 0.96 after a jump from
    0.80 three seconds earlier. *)
Definition scenario_c_settings : Settings :=
  {| price_threshold := 97 # 100; spike_threshold := 15 # 100;
     max_slippage := 1 # 100; snipe_amount_usdc := 10; dry_run := false |}.

Definition scenario_c_market : Market :=
  set_price_history demo_market [(1000, 80 # 100, 20 # 100)].

Definition scenario_c_prices : gmap string Q :=
  <["N" := 4 # 100]> (<["Y" := 96 # 100]> ∅).

Definition scenario_c_io : @poll_io unit unit :=
  {| quotes := fun _ => Body [quoted "Y" (96 # 100); quoted "N" (4 # 100)];
     clock_history := 1003;
     clock_now := 1003;
     builder := fun _ => Return tt;
     orders := fun _ => Body tt |}.

Definition scenario_c_market1 : Market :=
  set_price_history demo_market
    [(1000, 80 # 100, 20 # 100); (1003, 96 # 100, 4 # 100)].

(** A poll at time [t] that quotes the yes side at [yes_price] and whose
    order builder raises, so that every snipe fails. *)
Definition failing_poll (t yes_price : Q) : @poll_io unit unit :=
  {| quotes := fun _ => Body [quoted "Y" yes_price; quoted "N" (1 - yes_price)];
     clock_history := t;
     clock_now := t;
     builder := fun _ => Raise (RuntimeError "signer unavailable");
     orders := fun _ => ClientFailure |}.

Definition always_failing {B : Type} : nat -> outcome B := fun _ => ClientFailure.

(** Two rate limits, then an answer. *)
Definition limited_twice {B : Type} (raw : B) : nat -> outcome B :=
  fun attempt => if (attempt <? 2)%nat then Status429 else Body raw.

(** A response that quotes the yes token twice, with an entry without a
    price in between. *)
Definition requoted : list entry :=
  [quoted "Y" (50 # 100);
   {| entry_token_id := Some "N"; entry_price := None |};
   quoted "N" (40 # 100);
   quoted "Y" (60 # 100)].

(** A response whose yes price is not a number. *)
Definition garbled : list entry :=
  [{| entry_token_id := Some "Y"; entry_price := Some NonNumeric |};
   quoted "N" (40 # 100)].

(** A poll at time [t] whose order would be built and accepted. *)
Definition live_poll (t yes_price : Q) : @poll_io unit string :=
  {| quotes := fun _ => Body [quoted "Y" yes_price; quoted "N" (1 - yes_price)];
     clock_history := t;
     clock_now := t;
     builder := fun _ => Return tt;
     orders := fun _ => Body "0xabc" |}.

(** A poll whose quote carries an unconvertible price. *)
Definition garbled_poll (t : Q) : @poll_io unit string :=
  {| quotes := fun _ => Body garbled;
     clock_history := t;
     clock_now := t;
     builder := fun _ => Return tt;
     orders := fun _ => Body "0xabc" |}.

Definition dry_settings : Settings :=
  {| price_threshold := 97 # 100; spike_threshold := 15 # 100;
     max_slippage := 1 # 100; snipe_amount_usdc := 10; dry_run := true |}.

(** Scenario D: 5 USDC available. *)
Definition five_usdc : gmap string (gmap string price_field) :=
  {[ "USDC" := {[ "available" := Numeric 5 ]} ]}.

Definition eleven_usdc : gmap string (gmap string price_field) :=
  {[ "USDC" := {[ "available" := Numeric 11 ]} ]}.

(** Sixty polls fill the buffer of [demo_market] to its capacity. *)
Definition minute_of_polls : list (@poll_io unit string) :=
  List.map (fun k => live_poll (inject_Z (Z.of_nat k)) (60 # 100)) (seq 1 60).

(** * Properties *)

(** ** Facts about rounding *)

Module DecFacts.

Import Dec.

Lemma inject_Z_succ (z : Z) : inject_Z (z + 1) == inject_Z z + 1.
Proof. rewrite inject_Z_plus. reflexivity. Qed.

Lemma round_half_even_nearest (x : Q) : nearest_even x (round_half_even x).
Proof.
  unfold nearest_even, round_half_even.
  pose proof (Qfloor_le x) as Hlo.
  pose proof (Qlt_floor x) as Hhi.
  rewrite inject_Z_succ in Hhi.
  destruct (Qcompare_spec (x - inject_Z (Qfloor x)) (1 # 2)) as [He | Hl | Hg].
  - destruct (Z.even (Qfloor x)) eqn:Hev.
    + split; [ split; lra | split; intros Hx; [ exact Hev | lra ] ].
    + rewrite inject_Z_succ.
      split; [ split; lra | split; intros Hx; [ lra | ] ].
      rewrite Z.even_add, Hev. reflexivity.
  - split; [ split; lra | split; intros Hx; lra ].
  - rewrite inject_Z_succ.
    split; [ split; lra | split; intros Hx; lra ].
Qed.

Lemma inject_Z_le_1 (a b : Z) : inject_Z a + 1 <= inject_Z b -> (a + 1 <= b)%Z.
Proof.
  intros H. rewrite <- inject_Z_succ in H. now rewrite <- Zle_Qle in H.
Qed.

Lemma nearest_even_unique (x : Q) (r1 r2 : Z) :
  nearest_even x r1 -> nearest_even x r2 -> r1 = r2.
Proof.
  intros (B1 & U1 & L1) (B2 & U2 & L2).
  destruct (Z.lt_trichotomy r1 r2) as [Hlt | [Heq | Hgt]]; [ | exact Heq | ].
  - assert (Hq : inject_Z r1 + 1 <= inject_Z r2).
    { rewrite <- inject_Z_succ. rewrite <- Zle_Qle. lia. }
    assert (E1 : x == inject_Z r1 + (1 # 2)) by lra.
    assert (E2 : x == inject_Z r2 - (1 # 2)) by lra.
    specialize (U1 E1). specialize (L2 E2).
    assert (Hr : r2 = (r1 + 1)%Z).
    { apply Z.le_antisymm; [ | lia ].
      rewrite Zle_Qle, inject_Z_succ. lra. }
    subst r2. rewrite Z.even_add, U1 in L2. discriminate.
  - assert (Hq : inject_Z r2 + 1 <= inject_Z r1).
    { rewrite <- inject_Z_succ. rewrite <- Zle_Qle. lia. }
    assert (E1 : x == inject_Z r2 + (1 # 2)) by lra.
    assert (E2 : x == inject_Z r1 - (1 # 2)) by lra.
    specialize (U2 E1). specialize (L1 E2).
    assert (Hr : r1 = (r2 + 1)%Z).
    { apply Z.le_antisymm; [ | lia ].
      rewrite Zle_Qle, inject_Z_succ. lra. }
    subst r1. rewrite Z.even_add, U2 in L1. discriminate.
Qed.

Lemma round_half_even_mono (x y : Q) :
  x <= y -> (round_half_even x <= round_half_even y)%Z.
Proof.
  intros Hxy.
  destruct (round_half_even_nearest x) as (Bx & _ & Lx).
  destruct (round_half_even_nearest y) as (By & Uy & _).
  destruct (Z.le_gt_cases (round_half_even x) (round_half_even y)) as [H | H];
    [ exact H | exfalso ].
  assert (Hq : inject_Z (round_half_even y) + 1 <= inject_Z (round_half_even x)).
  { rewrite <- inject_Z_succ. rewrite <- Zle_Qle. lia. }
  assert (E1 : x == inject_Z (round_half_even x) - (1 # 2)) by lra.
  assert (E2 : y == inject_Z (round_half_even y) + (1 # 2)) by lra.
  specialize (Lx E1). specialize (Uy E2).
  assert (Hr : round_half_even x = (round_half_even y + 1)%Z).
  { apply Z.le_antisymm; [ | lia ].
    rewrite Zle_Qle, inject_Z_succ. lra. }
  rewrite Hr, Z.even_add, Uy in Lx. discriminate.
Qed.

Lemma round_half_even_opp (x : Q) :
  round_half_even (- x) = (- round_half_even x)%Z.
Proof.
  apply nearest_even_unique with (x := - x).
  - apply round_half_even_nearest.
  - destruct (round_half_even_nearest x) as (B & U & L).
    unfold nearest_even. rewrite inject_Z_opp, Z.even_opp.
    split; [ split; lra | split; intros Hx; [ apply L | apply U ]; lra ].
Qed.

Lemma round_half_even_inject (z : Z) : round_half_even (inject_Z z) = z.
Proof.
  apply nearest_even_unique with (x := inject_Z z).
  - apply round_half_even_nearest.
  - unfold nearest_even.
    split; [ split; lra | split; intros Hx; lra ].
Qed.

(** *** Powers of ten *)

Lemma pow10_pos (e : Z) : 0 < 10 ^ e.
Proof. apply Qpower_0_lt. reflexivity. Qed.

Lemma pow10_plus (a b : Z) : 10 ^ (a + b) == 10 ^ a * 10 ^ b.
Proof. apply Qpower_plus. discriminate. Qed.

Lemma pow10_le (a b : Z) : (a <= b)%Z -> 10 ^ a <= 10 ^ b.
Proof. intros H. apply Qpower_le_compat_l; [ exact H | discriminate ]. Qed.

Lemma pow10_lt_inv (a b : Z) : 10 ^ a < 10 ^ b -> (a < b)%Z.
Proof. intros H. apply Qpower_lt_compat_l_inv with (q := 10); [ exact H | reflexivity ]. Qed.

Lemma pow10_inject (k : Z) : (0 <= k)%Z -> 10 ^ k == inject_Z (10 ^ k).
Proof. intros H. rewrite Zpower_Qpower by exact H. reflexivity. Qed.

(** *** The adjusted exponent *)

Lemma find_exp_spec (fuel : nat) : forall (e : Z) (x : Q),
  x < 10 ^ (e + 1) -> 10 ^ (e - Z.of_nat fuel) <= x ->
  10 ^ find_exp fuel e x <= x < 10 ^ (find_exp fuel e x + 1).
Proof.
  induction fuel as [ | fuel IH ]; intros e x Hhi Hlo; cbn [find_exp].
  - replace (e - Z.of_nat 0)%Z with e in Hlo by lia. split; assumption.
  - destruct (Qle_bool (10 ^ e) x) eqn:Hle.
    + apply Qle_bool_iff in Hle. split; assumption.
    + apply IH.
      * replace (e - 1 + 1)%Z with e by lia.
        apply Qnot_le_lt. intros Hc. apply Qle_bool_iff in Hc. congruence.
      * replace (e - 1 - Z.of_nat fuel)%Z with (e - Z.of_nat (S fuel))%Z by lia.
        exact Hlo.
Qed.

Lemma Qabs_upper (x : Q) :
  Qabs x < 10 ^ (Z.log2 (Z.abs (Qnum x)) + 1 + 1).
Proof.
  destruct x as [n d]. cbn [Qnum Qabs].
  set (k := Z.log2 (Z.abs n)).
  assert (Hk : (0 <= k)%Z) by apply Z.log2_nonneg.
  apply Qle_lt_trans with (y := inject_Z (Z.abs n)).
  - unfold Qle. cbn. nia.
  - apply Qlt_le_trans with (y := inject_Z (10 ^ (k + 1))).
    + rewrite <- Zlt_Qlt.
      destruct (Z.eq_dec n 0%Z) as [-> | Hn].
      * cbn. lia.
      * assert (Hs : (Z.abs n < 2 ^ Z.succ k)%Z)
          by (apply Z.log2_spec; lia).
        assert (Hp : (2 ^ Z.succ k <= 10 ^ Z.succ k)%Z)
          by (apply Z.pow_le_mono_l; lia).
        replace (k + 1)%Z with (Z.succ k) by lia. lia.
    + rewrite <- pow10_inject by lia. apply pow10_le. lia.
Qed.

Lemma Qabs_lower (x : Q) :
  ~ x == 0 -> 10 ^ (- (Z.log2 (Zpos (Qden x)) + 1)) <= Qabs x.
Proof.
  destruct x as [n d]. cbn [Qden Qabs]. intros Hx.
  set (k := Z.log2 (Zpos d)).
  assert (Hk : (0 <= k)%Z) by apply Z.log2_nonneg.
  assert (Hn : (1 <= Z.abs n)%Z).
  { destruct (Z.eq_dec n 0%Z) as [-> | Hn]; [ | lia ].
    exfalso. apply Hx. reflexivity. }
  assert (Hd : (Zpos d < 10 ^ (k + 1))%Z).
  { assert (Hs : (Zpos d < 2 ^ Z.succ k)%Z) by (apply Z.log2_spec; lia).
    assert (Hp : (2 ^ Z.succ k <= 10 ^ Z.succ k)%Z)
      by (apply Z.pow_le_mono_l; lia).
    replace (k + 1)%Z with (Z.succ k) by lia. lia. }
  rewrite Qpower_opp, pow10_inject by lia.
  assert (Hpos : (0 < 10 ^ (k + 1))%Z) by lia.
  destruct (10 ^ (k + 1))%Z as [ | p | p ] eqn:Hp; try lia.
  unfold Qle, Qinv, inject_Z. cbn. nia.
Qed.

Lemma adjusted_spec (x : Q) :
  ~ x == 0 -> 10 ^ adjusted x <= Qabs x < 10 ^ (adjusted x + 1).
Proof.
  intros Hx. unfold adjusted.
  set (hi := (Z.log2 (Z.abs (Qnum x)) + 1)%Z).
  set (lo := (- (Z.log2 (Zpos (Qden x)) + 1))%Z).
  assert (Hhi : (0 <= Z.log2 (Z.abs (Qnum x)))%Z) by apply Z.log2_nonneg.
  assert (Hlo : (0 <= Z.log2 (Zpos (Qden x)))%Z) by apply Z.log2_nonneg.
  apply find_exp_spec.
  - apply Qabs_upper.
  - replace (hi - Z.of_nat (Z.to_nat (hi - lo)))%Z with lo by lia.
    apply Qabs_lower. exact Hx.
Qed.

(** The adjusted exponent is determined by the decade that holds [|x|]. *)
Lemma adjusted_le (x y : Q) :
  ~ x == 0 -> ~ y == 0 -> Qabs x <= Qabs y -> (adjusted x <= adjusted y)%Z.
Proof.
  intros Hx Hy Hxy.
  destruct (adjusted_spec x Hx) as [Lx _].
  destruct (adjusted_spec y Hy) as [_ Uy].
  assert (H : 10 ^ adjusted x < 10 ^ (adjusted y + 1)).
  { eapply Qle_lt_trans; [ exact Lx | ].
    eapply Qle_lt_trans; [ exact Hxy | exact Uy ]. }
  apply pow10_lt_inv in H. lia.
Qed.

Lemma adjusted_opp (x : Q) : adjusted (- x) = adjusted x.
Proof.
  destruct x as [n d]. unfold adjusted. cbn [Qopp Qnum Qden Qabs].
  rewrite Z.abs_opp. reflexivity.
Qed.

(** *** Rounding to the context precision *)

Lemma round_half_even_comp (x y : Q) :
  x == y -> round_half_even x = round_half_even y.
Proof.
  intros H. apply Z.le_antisymm; apply round_half_even_mono; lra.
Qed.

Lemma ctx_round_zero (x : Q) : x == 0 -> ctx_round x = 0.
Proof.
  intros H. unfold ctx_round.
  apply Qeq_bool_iff in H. rewrite H. reflexivity.
Qed.

Lemma ctx_round_nonzero (x : Q) :
  ~ x == 0 ->
  ctx_round x =
    inject_Z (round_half_even (x / 10 ^ (adjusted x - (prec - 1))))
    * 10 ^ (adjusted x - (prec - 1)).
Proof.
  intros H. unfold ctx_round.
  destruct (Qeq_bool x 0) eqn:E; [ | reflexivity ].
  apply Qeq_bool_iff in E. contradiction.
Qed.

(** The coefficient of a rounded positive number has [prec] digits. *)
Lemma coefficient_bounds (x : Q) :
  0 < x ->
  (10 ^ (prec - 1) <= round_half_even (x / 10 ^ (adjusted x - (prec - 1)))
     <= 10 ^ prec)%Z.
Proof.
  intros Hx.
  assert (Hnz : ~ x == 0) by lra.
  destruct (adjusted_spec x Hnz) as [Lo Hi].
  rewrite Qabs_pos in Lo, Hi by lra.
  set (s := (adjusted x - (prec - 1))%Z) in *.
  pose proof (pow10_pos s) as Hs.
  assert (E1 : 10 ^ adjusted x == 10 ^ (prec - 1) * 10 ^ s).
  { rewrite <- pow10_plus. subst s.
    replace (prec - 1 + (adjusted x - (prec - 1)))%Z with (adjusted x) by lia.
    reflexivity. }
  assert (E2 : 10 ^ (adjusted x + 1) == 10 ^ prec * 10 ^ s).
  { rewrite <- pow10_plus. subst s.
    replace (prec + (adjusted x - (prec - 1)))%Z with (adjusted x + 1)%Z by lia.
    reflexivity. }
  split.
  - rewrite <- (round_half_even_inject (10 ^ (prec - 1))) at 1.
    apply round_half_even_mono.
    rewrite <- pow10_inject by (unfold prec; lia).
    apply Qle_shift_div_l; [ exact Hs | ]. rewrite <- E1. exact Lo.
  - rewrite <- (round_half_even_inject (10 ^ prec)) at 1.
    apply round_half_even_mono.
    rewrite <- pow10_inject by (unfold prec; lia).
    apply Qle_shift_div_r; [ exact Hs | ]. rewrite <- E2. lra.
Qed.

Lemma ctx_round_pos_bounds (x : Q) :
  0 < x -> 10 ^ adjusted x <= ctx_round x <= 10 ^ (adjusted x + 1).
Proof.
  intros Hx.
  rewrite ctx_round_nonzero by lra.
  destruct (coefficient_bounds x Hx) as [Lo Hi].
  set (s := (adjusted x - (prec - 1))%Z) in *.
  pose proof (pow10_pos s) as Hs.
  rewrite Zle_Qle in Lo, Hi.
  rewrite <- !pow10_inject in Lo, Hi by (unfold prec; lia).
  assert (E1 : 10 ^ adjusted x == 10 ^ (prec - 1) * 10 ^ s).
  { rewrite <- pow10_plus. subst s.
    replace (prec - 1 + (adjusted x - (prec - 1)))%Z with (adjusted x) by lia.
    reflexivity. }
  assert (E2 : 10 ^ (adjusted x + 1) == 10 ^ prec * 10 ^ s).
  { rewrite <- pow10_plus. subst s.
    replace (prec + (adjusted x - (prec - 1)))%Z with (adjusted x + 1)%Z by lia.
    reflexivity. }
  rewrite E1, E2.
  split; apply Qmult_le_compat_r; lra.
Qed.

Lemma ctx_round_mono_pos (x y : Q) :
  0 < x -> x <= y -> ctx_round x <= ctx_round y.
Proof.
  intros Hx Hxy.
  assert (Hy : 0 < y) by lra.
  assert (Hadj : (adjusted x <= adjusted y)%Z).
  { apply adjusted_le; try lra. rewrite !Qabs_pos by lra. exact Hxy. }
  destruct (Z.eq_dec (adjusted x) (adjusted y)) as [Heq | Hne].
  - rewrite !ctx_round_nonzero by lra. rewrite Heq.
    pose proof (pow10_pos (adjusted y - (prec - 1))) as Hs.
    apply Qmult_le_compat_r; [ | lra ].
    rewrite <- Zle_Qle. apply round_half_even_mono.
    apply Qmult_le_compat_r; [ exact Hxy | ].
    apply Qlt_le_weak, Qinv_lt_0_compat, Hs.
  - destruct (ctx_round_pos_bounds x Hx) as [_ Ux].
    destruct (ctx_round_pos_bounds y Hy) as [Ly _].
    eapply Qle_trans; [ exact Ux | ].
    eapply Qle_trans; [ | exact Ly ].
    apply pow10_le. lia.
Qed.

Lemma ctx_round_opp (x : Q) : ctx_round (- x) == - ctx_round x.
Proof.
  destruct (Qeq_dec x 0) as [Hz | Hnz].
  - rewrite (ctx_round_zero x Hz), (ctx_round_zero (- x)) by lra. reflexivity.
  - rewrite !ctx_round_nonzero by lra.
    rewrite adjusted_opp.
    set (s := (adjusted x - (prec - 1))%Z).
    pose proof (pow10_pos s) as Hs.
    rewrite (round_half_even_comp (- x / 10 ^ s) (- (x / 10 ^ s)))
      by (field; lra).
    rewrite round_half_even_opp, inject_Z_opp. ring.
Qed.

Lemma ctx_round_sign_pos (x : Q) : 0 < x -> 0 < ctx_round x.
Proof.
  intros Hx. destruct (ctx_round_pos_bounds x Hx) as [Lo _].
  pose proof (pow10_pos (adjusted x)). lra.
Qed.

(** Correct rounding is monotone. *)
Lemma ctx_round_mono (x y : Q) : x <= y -> ctx_round x <= ctx_round y.
Proof.
  intros Hxy.
  destruct (Q_dec x 0) as [[Hx | Hx] | Hx].
  - (* x < 0 *)
    assert (Nx : ctx_round x < 0).
    { pose proof (ctx_round_sign_pos (- x)) as H.
      rewrite ctx_round_opp in H. lra. }
    destruct (Q_dec y 0) as [[Hy | Hy] | Hy].
    + pose proof (ctx_round_mono_pos (- y) (- x)) as H.
      rewrite !ctx_round_opp in H. lra.
    + pose proof (ctx_round_sign_pos y Hy). lra.
    + rewrite (ctx_round_zero y Hy). lra.
  - apply ctx_round_mono_pos; assumption.
  - rewrite (ctx_round_zero x Hx).
    destruct (Qeq_dec y 0) as [Hy | Hy].
    + rewrite (ctx_round_zero y Hy). lra.
    + pose proof (ctx_round_sign_pos y). lra.
Qed.

Lemma sub_mono_l (a a' b : Q) : a <= a' -> sub a b <= sub a' b.
Proof. intros H. apply ctx_round_mono. lra. Qed.

Lemma div_mono_l (a a' b : Q) : 0 < b -> a <= a' -> div a b <= div a' b.
Proof.
  intros Hb H. apply ctx_round_mono.
  apply Qmult_le_compat_r; [ exact H | ].
  apply Qlt_le_weak, Qinv_lt_0_compat, Hb.
Qed.

End DecFacts.

(** ** The spike detector *)



Lemma Qle_bool_false (a b : Q) : Qle_bool a b = false <-> b < a.
Proof.
  split; intros H.
  - apply Qnot_le_lt. intros Hc. apply Qle_bool_iff in Hc. congruence.
  - destruct (Qle_bool a b) eqn:E; [ | reflexivity ].
    apply Qle_bool_iff in E. lra.
Qed.

(** The body of [detect_spike] once the in-window samples are known. *)
Lemma detect_spike_unfold (history : list sample) (now wp thr : Q) (y : bool) :
  detect_spike history now wp y thr =
    match List.filter (in_window now) history with
    | first :: _ :: _ =>
        if Dec.le (side_price y first) 0 then false
        else Dec.ge (Dec.div (Dec.sub wp (side_price y first)) (side_price y first)) thr
    | _ => false
    end.
Proof.
  unfold detect_spike, side_price.
  destruct (List.filter (in_window now) history) as [ | a [ | b l ] ]; reflexivity.
Qed.

(** Scenarios A and B: a move from 0.80 to 0.95 within three seconds is an
    increase of 0.1875, a spike for a threshold of 0.15 and none for 0.20. *)
Example scenario_a :
  detect_spike [(0, 80 # 100, 20 # 100); (3, 95 # 100, 5 # 100)]
    3 (95 # 100) true (15 # 100) = true.
Proof. vm_compute. reflexivity. Qed.

Example scenario_b :
  detect_spike [(0, 80 # 100, 20 # 100); (3, 95 # 100, 5 # 100)]
    3 (95 # 100) true (20 # 100) = false.
Proof. vm_compute. reflexivity. Qed.


(** C9.  With the history, the time, the winning side and the threshold
    fixed, [detect_spike] is monotone in the winning price: a spike at
    price [p] is a spike at every price [p' >= p]. *)
Theorem detect_spike_monotone
    (history : list sample) (now p p' spike_threshold : Q) (winner_is_yes : bool) :
  p <= p' ->
  detect_spike history now p winner_is_yes spike_threshold = true ->
  detect_spike history now p' winner_is_yes spike_threshold = true.
Proof.
  intros Hp. rewrite !detect_spike_unfold.
  destruct (List.filter (in_window now) history) as [ | first [ | second rest ] ];
    try discriminate.
  unfold Dec.le, Dec.ge.
  destruct (Qle_bool (side_price winner_is_yes first) 0) eqn:Hb; [ discriminate | ].
  apply Qle_bool_false in Hb. rewrite !Qle_bool_iff. intros Hinc.
  eapply Qle_trans; [ exact Hinc | ].
  apply DecFacts.div_mono_l; [ exact Hb | ].
  apply DecFacts.sub_mono_l, Hp.
Qed.

Lemma detect_spike_monotone_witness :
  (95 # 100) <= (99 # 100)
  /\ detect_spike [(0, 80 # 100, 20 # 100); (3, 95 # 100, 5 # 100)]
       3 (99 # 100) true (15 # 100) = true.
Proof.
  assert (H : (95 # 100) <= (99 # 100)) by (unfold Qle; cbn; lia).
  split; [ exact H | ].
  apply (detect_spike_monotone _ _ (95 # 100) (99 # 100) _ _ H).
  vm_compute. reflexivity.
Defined.

(** ** The winner resolver *)

(** C8.  On a price mapping that holds both tokens, [determine_winner]
    returns the yes token, its price and [True] exactly when
    [yes_price >= no_price], and the no token, its price and [False]
    otherwise; equal prices select the yes token. *)
Theorem determine_winner_spec
    (prices : gmap string Q) (market : Market) (yes_price no_price : Q) :
  prices !! yes_token market = Some yes_price ->
  prices !! no_token market = Some no_price ->
  (no_price <= yes_price ->
     determine_winner prices market = Return (yes_token market, yes_price, true))
  /\ (yes_price < no_price ->
     determine_winner prices market = Return (no_token market, no_price, false))
  /\ (yes_price == no_price ->
     determine_winner prices market = Return (yes_token market, yes_price, true)).
Proof.
  intros Hy Hn.
  assert (Hge : no_price <= yes_price ->
    determine_winner prices market = Return (yes_token market, yes_price, true)).
  { intros H. unfold determine_winner, getitem. rewrite Hy, Hn. cbn.
    unfold Dec.ge. apply Qle_bool_iff in H. rewrite H. reflexivity. }
  split; [ exact Hge | split ].
  - intros H. unfold determine_winner, getitem. rewrite Hy, Hn. cbn.
    unfold Dec.ge. apply Qle_bool_false in H. rewrite H. reflexivity.
  - intros H. apply Hge. lra.
Qed.

Lemma determine_winner_spec_witness :
  tied_prices !! yes_token demo_market = Some (1 # 2)
  /\ tied_prices !! no_token demo_market = Some (1 # 2)
  /\ determine_winner tied_prices demo_market = Return ("Y", 1 # 2, true).
Proof.
  assert (Hy : tied_prices !! yes_token demo_market = Some (1 # 2))
    by (vm_compute; reflexivity).
  assert (Hn : tied_prices !! no_token demo_market = Some (1 # 2))
    by (vm_compute; reflexivity).
  split; [ exact Hy | split; [ exact Hn | ] ].
  apply (determine_winner_spec tied_prices demo_market (1 # 2) (1 # 2) Hy Hn).
  reflexivity.
Defined.

(** ** The quote client and the order submitter *)

Lemma posts_to_post (ep : string) (tr : list event) :
  posts_to ep (Post ep :: tr) = S (posts_to ep tr).
Proof.
  unfold posts_to. cbn [List.filter].
  rewrite bool_decide_eq_true_2 by reflexivity. reflexivity.
Qed.

Lemma posts_to_sleep (ep : string) (s : Q) (tr : list event) :
  posts_to ep (Sleep s :: tr) = posts_to ep tr.
Proof. reflexivity. Qed.

Lemma parse_prices_some (market : Market) (raw : list entry) (prices : gmap string Q) :
  parse_prices market raw = Return (Some prices) ->
  is_Some (prices !! yes_token market) /\ is_Some (prices !! no_token market).
Proof.
  unfold parse_prices.
  destruct (collect_prices raw ∅) as [ collected | e ]; cbn.
  - destruct (bool_decide (is_Some (collected !! yes_token market))) eqn:Hy;
      destruct (bool_decide (is_Some (collected !! no_token market))) eqn:Hn;
      cbn; try discriminate.
    intros [= <-].
    apply bool_decide_eq_true_1 in Hy, Hn. split; assumption.
  - destruct e; discriminate.
Qed.

Lemma get_prices_loop_some (responses : nat -> outcome (list entry))
    (market : Market) (prices : gmap string Q) (attempts : list nat) :
  forall tr,
    get_prices_loop attempts responses market = (Return (Some prices), tr) ->
    is_Some (prices !! yes_token market) /\ is_Some (prices !! no_token market).
Proof.
  induction attempts as [ | attempt rest IH ]; intros tr; cbn [get_prices_loop].
  - discriminate.
  - destruct (responses attempt) as [ | | raw | e ].
    + destruct (get_prices_loop rest responses market) as [r tr'].
      intros [= -> _]. eapply IH. reflexivity.
    + destruct (get_prices_loop rest responses market) as [r tr'].
      intros [= -> _]. eapply IH. reflexivity.
    + intros [= H _]. eapply parse_prices_some, H.
    + discriminate.
Qed.

Lemma get_prices_loop_transient (responses : nat -> outcome (list entry))
    (market : Market) (attempts : list nat) :
  (forall attempt, In attempt attempts -> transient (responses attempt)) ->
  fst (get_prices_loop attempts responses market) = Return None
  /\ posts_to "/prices" (snd (get_prices_loop attempts responses market))
     = length attempts.
Proof.
  induction attempts as [ | attempt rest IH ]; intros Hall; cbn [get_prices_loop].
  - split; reflexivity.
  - destruct IH as [IHr IHp]; [ intros a Ha; apply Hall; right; exact Ha | ].
    destruct (Hall attempt (or_introl eq_refl)) as [E | E]; rewrite E;
      destruct (get_prices_loop rest responses market) as [r tr'];
      cbn [fst snd length] in *;
      rewrite posts_to_post, posts_to_sleep, IHp;
      (split; [ exact IHr | reflexivity ]).
Qed.

Lemma get_prices_loop_posts_le (responses : nat -> outcome (list entry))
    (market : Market) (attempts : list nat) :
  (posts_to "/prices" (snd (get_prices_loop attempts responses market))
   <= length attempts)%nat.
Proof.
  induction attempts as [ | attempt rest IH ]; cbn [get_prices_loop].
  - cbn. lia.
  - destruct (responses attempt) as [ | | raw | e ].
    + destruct (get_prices_loop rest responses market) as [r tr'].
      cbn [fst snd length] in *. rewrite posts_to_post, posts_to_sleep. lia.
    + destruct (get_prices_loop rest responses market) as [r tr'].
      cbn [fst snd length] in *. rewrite posts_to_post, posts_to_sleep. lia.
    + cbn [snd length]. rewrite posts_to_post. cbn. lia.
    + cbn [snd length]. rewrite posts_to_post. cbn. lia.
Qed.

Lemma submit_order_loop_transient {receipt : Type}
    (responses : nat -> outcome receipt) (attempts : list nat) :
  (forall attempt, In attempt attempts -> transient (responses attempt)) ->
  fst (submit_order_loop attempts responses)
  = Raise (RuntimeError "Failed to submit order after retries").
Proof.
  induction attempts as [ | attempt rest IH ]; intros Hall; cbn [submit_order_loop].
  - reflexivity.
  - specialize (IH (fun a Ha => Hall a (or_intror Ha))).
    destruct (Hall attempt (or_introl eq_refl)) as [E | E]; rewrite E;
      destruct (submit_order_loop rest responses) as [r tr']; exact IH.
Qed.

Lemma in_seq_retries (attempt : nat) :
  In attempt (seq 0 MAX_RETRIES) -> (attempt < MAX_RETRIES)%nat.
Proof. intros H. apply in_seq in H. lia. Qed.

(** With both tokens present neither caller raises. *)
Lemma lookups_succeed_intro (market : Market) (prices : gmap string Q) :
  is_Some (prices !! yes_token market) ->
  is_Some (prices !! no_token market) ->
  lookups_succeed market prices.
Proof.
  intros [y Hy] [n Hn].
  assert (Hw : forall m, yes_token m = yes_token market ->
                         no_token m = no_token market ->
                         exists winner, determine_winner prices m = Return winner).
  { intros m Ey En. unfold determine_winner, getitem. rewrite Ey, En, Hy, Hn. cbn.
    destruct (Dec.ge y n); eexists; reflexivity. }
  unfold lookups_succeed.
  split; [ exists y; exact Hy | ].
  split; [ exists n; exact Hn | ].
  split; [ apply Hw; reflexivity | ].
  intros now. unfold update_history, getitem. rewrite Hy, Hn. cbn.
  eexists. split; [ reflexivity | ]. apply Hw; reflexivity.
Qed.

(** C10.  A mapping returned by [get_prices] holds a price for the
    market's yes token and for its no token, so the lookups
    [prices[market.yes_token]] and [prices[market.no_token]] of
    [determine_winner] and [update_history] do not raise on it. *)
Theorem get_prices_result_complete
    (responses : nat -> outcome (list entry)) (market : Market)
    (prices : gmap string Q) (tr : list event) :
  get_prices responses market = (Return (Some prices), tr) ->
  lookups_succeed market prices.
Proof.
  intros H. unfold get_prices in H.
  apply get_prices_loop_some in H. destruct H as [Hy Hn].
  apply lookups_succeed_intro; assumption.
Qed.

Lemma get_prices_result_complete_witness :
  get_prices good_quotes demo_market = (Return (Some good_prices), [Post "/prices"])
  /\ lookups_succeed demo_market good_prices.
Proof.
  assert (H : get_prices good_quotes demo_market
              = (Return (Some good_prices), [Post "/prices"]))
    by (vm_compute; reflexivity).
  split; [ exact H | ].
  exact (get_prices_result_complete good_quotes demo_market good_prices _ H).
Defined.

(** C6.  When every one of the [MAX_RETRIES] attempts meets a rate limit
    or a transient error, [get_prices] returns [None] and raises nothing,
    while [submit_order] raises [RuntimeError]. *)
Theorem retries_exhausted {signed_order receipt : Type}
    (quote_responses : nat -> outcome (list entry)) (market : Market)
    (order : signed_order) (order_responses : nat -> outcome receipt) :
  (forall attempt, (attempt < MAX_RETRIES)%nat -> transient (quote_responses attempt)) ->
  (forall attempt, (attempt < MAX_RETRIES)%nat -> transient (order_responses attempt)) ->
  fst (get_prices quote_responses market) = Return None
  /\ fst (submit_order order order_responses)
     = Raise (RuntimeError "Failed to submit order after retries").
Proof.
  intros Hq Ho. split.
  - apply get_prices_loop_transient.
    intros attempt Hin. apply Hq, in_seq_retries, Hin.
  - apply submit_order_loop_transient.
    intros attempt Hin. apply Ho, in_seq_retries, Hin.
Qed.

Lemma retries_exhausted_witness :
  (forall attempt, (attempt < MAX_RETRIES)%nat ->
     transient (@flaky (list entry) attempt))
  /\ (forall attempt, (attempt < MAX_RETRIES)%nat ->
     transient (@always_limited unit attempt))
  /\ fst (get_prices flaky demo_market) = Return None
  /\ fst (submit_order tt (@always_limited unit))
     = Raise (RuntimeError "Failed to submit order after retries").
Proof.
  assert (Hq : forall attempt, (attempt < MAX_RETRIES)%nat ->
                 transient (@flaky (list entry) attempt)).
  { intros attempt _. unfold flaky, transient.
    destruct (Nat.even attempt); [ right | left ]; reflexivity. }
  assert (Ho : forall attempt, (attempt < MAX_RETRIES)%nat ->
                 transient (@always_limited unit attempt)).
  { intros attempt _. left. reflexivity. }
  split; [ exact Hq | split; [ exact Ho | ] ].
  exact (retries_exhausted flaky demo_market tt always_limited Hq Ho).
Defined.

(** C7.  In [get_prices] a 429 answer uses up one of the [MAX_RETRIES]
    attempts, exactly as a transient error does: no call sends more than
    [MAX_RETRIES] requests, a call whose attempts all meet a rate limit or
    a transient error returns [None] after exactly [MAX_RETRIES] requests,
    and when the endpoint answers 429 three times the call returns [None]
    after three requests although a fourth would have succeeded. *)
Theorem rate_limit_uses_retry_budget :
  (forall responses market,
     (posts_to "/prices" (snd (get_prices responses market)) <= MAX_RETRIES)%nat)
  /\ (forall responses market,
        (forall attempt, (attempt < MAX_RETRIES)%nat -> transient (responses attempt)) ->
        fst (get_prices responses market) = Return None
        /\ posts_to "/prices" (snd (get_prices responses market)) = MAX_RETRIES)
  /\ (forall market raw,
        get_prices (limited_three_times raw) market
        = (Return None,
           [Post "/prices"; Sleep (5 # 10); Post "/prices"; Sleep (5 # 10);
            Post "/prices"; Sleep (5 # 10)])
        /\ limited_three_times raw 3 = Body raw).
Proof.
  split; [ | split ].
  - intros responses market. apply (get_prices_loop_posts_le responses market).
  - intros responses market Hall.
    apply (get_prices_loop_transient responses market (seq 0 MAX_RETRIES)).
    intros attempt Hin. apply Hall, in_seq_retries, Hin.
  - intros market raw. split; reflexivity.
Qed.

(** ** Order sizing *)

(** The size is the multiple of 0.0001 nearest to the quotient. *)
Lemma compute_order_quantity_nearest (amount_usdc target_price size : Q) :
  compute_order_quantity amount_usdc target_price = Return size ->
  0 < target_price
  /\ Qabs (size - Dec.div amount_usdc target_price) <= 5 # 100000.
Proof.
  unfold compute_order_quantity, Dec.le, Dec.quantize4.
  destruct (Qle_bool target_price 0) eqn:Hp; [ discriminate | ].
  apply Qle_bool_false in Hp.
  set (q := Dec.div amount_usdc target_price).
  destruct (Z.abs (Dec.round_half_even (q * 10000)) <? 10 ^ Dec.prec)%Z;
    [ | discriminate ].
  intros [= <-]. split; [ exact Hp | ].
  destruct (DecFacts.round_half_even_nearest (q * 10000)) as ([Lo Hi] & _).
  set (r := inject_Z (Dec.round_half_even (q * 10000))) in *.
  clearbody r q.
  change (r / 10000) with (r * (1 # 10000)).
  apply Qabs_Qle_condition. split; lra.
Qed.

(** The target price 0.98 is the one [snipe_buy] derives from a winning
    price of 0.979: [min(0.9999, 0.979 + 0.001)]. *)
Example target_price_of_snipe :
  Dec.min (9999 # 10000) (Dec.add (979 # 1000) (1 # 1000)) == 98 # 100.
Proof. vm_compute. reflexivity. Qed.

(** C2.  [compute_order_quantity] quantizes with the context's rounding
    mode, ROUND_HALF_EVEN, which can round the quotient up: for 10 USDC at
    a target price of 0.98 the quotient 10.20408... becomes 10.2041 shares,
    whose notional 10.000018 exceeds the 10 USDC requested. *)
Theorem compute_order_quantity_overspends :
  0 < 98 # 100
  /\ 0 <= 10
  /\ compute_order_quantity 10 (98 # 100) = Return (102041 # 10000)
  /\ 10 < (102041 # 10000) * (98 # 100)
  /\ ~ (forall amount_usdc target_price size,
          0 < target_price -> 0 <= amount_usdc ->
          compute_order_quantity amount_usdc target_price = Return size ->
          size * target_price <= amount_usdc).
Proof.
  assert (Hp : 0 < 98 # 100) by reflexivity.
  assert (Ha : 0 <= 10) by discriminate.
  assert (Hc : compute_order_quantity 10 (98 # 100) = Return (102041 # 10000))
    by (vm_compute; reflexivity).
  assert (Hn : 10 < (102041 # 10000) * (98 # 100)) by reflexivity.
  repeat split; try assumption.
  intros Hall. specialize (Hall _ _ _ Hp Ha Hc). lra.
Qed.

(** ** The price history *)

Lemma append_bounded_last_n (history : list sample) (s : sample) :
  append_bounded history s = last_n HISTORY_BUFFER_SIZE (history ++ [s]).
Proof.
  unfold append_bounded, last_n.
  destruct (HISTORY_BUFFER_SIZE <? length (history ++ [s]))%nat eqn:E.
  - reflexivity.
  - apply Nat.ltb_ge in E.
    replace (length (history ++ [s]) - HISTORY_BUFFER_SIZE)%nat with 0%nat by lia.
    reflexivity.
Qed.


Lemma length_last_n {A : Type} (n : nat) (l : list A) :
  length (last_n n l) = Nat.min n (length l).
Proof. unfold last_n. rewrite length_skipn. lia. Qed.


Lemma update_history_returns (market market' : Market)
    (prices : gmap string Q) (now : Q) :
  update_history market prices now = Return market' ->
  exists s, sample_taken market (prices, now) = Some s
            /\ market' = set_price_history market
                           (last_n HISTORY_BUFFER_SIZE (price_history market ++ [s])).
Proof.
  unfold update_history, getitem, sample_taken. cbn [fst snd].
  destruct (prices !! yes_token market) as [ y | ]; [ | discriminate ].
  destruct (prices !! no_token market) as [ n | ]; [ | discriminate ].
  cbn. intros [= <-]. eexists. split; [ reflexivity | ].
  rewrite append_bounded_last_n. reflexivity.
Qed.




(** ** The monitor loop *)

Lemma snipe_times_app (a b : list event) :
  snipe_times (a ++ b) = snipe_times a ++ snipe_times b.
Proof. unfold snipe_times. apply omap_app. Qed.

Lemma snipe_times_snipe (token : string) (price t : Q) (tr : list event) :
  snipe_times (SnipeBuy token price t :: tr) = t :: snipe_times tr.
Proof. reflexivity. Qed.

Lemma posts_to_app (ep : string) (a b : list event) :
  posts_to ep (a ++ b) = (posts_to ep a + posts_to ep b)%nat.
Proof. unfold posts_to. rewrite List.filter_app, length_app. reflexivity. Qed.

Lemma posts_to_other (ep ep' : string) (tr : list event) :
  ep' <> ep -> posts_to ep (Post ep' :: tr) = posts_to ep tr.
Proof.
  intros H. unfold posts_to. cbn [List.filter].
  rewrite bool_decide_eq_false_2 by exact H. reflexivity.
Qed.

(** The quote client sends nothing to [/orders] and calls no snipe. *)
Lemma get_prices_loop_trace (responses : nat -> outcome (list entry))
    (market : Market) (attempts : list nat) :
  snipe_times (snd (get_prices_loop attempts responses market)) = []
  /\ posts_to "/orders" (snd (get_prices_loop attempts responses market)) = 0%nat.
Proof.
  induction attempts as [ | attempt rest [IHs IHp] ]; cbn [get_prices_loop].
  - split; reflexivity.
  - destruct (responses attempt) as [ | | raw | e ];
      try destruct (get_prices_loop rest responses market) as [r tr'];
      cbn [snd] in *;
      rewrite posts_to_other by discriminate;
      split; solve [ assumption | reflexivity ].
Qed.

Lemma get_prices_trace (responses : nat -> outcome (list entry))
    (market : Market) (r : result (option (gmap string Q))) (tr : list event) :
  get_prices responses market = (r, tr) ->
  snipe_times tr = [] /\ posts_to "/orders" tr = 0%nat.
Proof.
  intros H.
  pose proof (get_prices_loop_trace responses market (seq 0 MAX_RETRIES)) as Htr.
  unfold get_prices in H. rewrite H in Htr. exact Htr.
Qed.

Lemma submit_order_loop_trace {receipt : Type}
    (responses : nat -> outcome receipt) (attempts : list nat) :
  snipe_times (snd (submit_order_loop attempts responses)) = [].
Proof.
  induction attempts as [ | attempt rest IH ]; cbn [submit_order_loop].
  - reflexivity.
  - destruct (responses attempt) as [ | | raw | e ];
      try destruct (submit_order_loop rest responses) as [r tr'];
      cbn [snd] in *; solve [ assumption | reflexivity ].
Qed.

Section MonitorFacts.

Context {signed_order receipt : Type}.
Implicit Types (io : @poll_io signed_order receipt).

Lemma snipe_buy_trace market token price settings io :
  snipe_times (snd (snipe_buy market token price settings io)) = [].
Proof.
  unfold snipe_buy.
  destruct (compute_order_quantity _ _) as [ size | e ]; [ | reflexivity ].
  destruct (dry_run settings); [ reflexivity | ].
  destruct (builder io _) as [ order | e ]; [ | reflexivity ].
  pose proof (submit_order_loop_trace (orders io) (seq 0 MAX_RETRIES)) as H.
  unfold submit_order.
  destruct (submit_order_loop (seq 0 MAX_RETRIES) (orders io)) as [r tr].
  exact H.
Qed.

Lemma monitor_step_quoted settings market io prices tr market1
    winner_token winner_price winner_is_yes :
  get_prices (quotes io) market = (Return (Some prices), tr) ->
  update_history market prices (clock_history io) = Return market1 ->
  determine_winner prices market1
    = Return (winner_token, winner_price, winner_is_yes) ->
  monitor_step settings market io =
    if Qlt_bool (clock_now io - last_snipe_ts market1) HISTORY_WINDOW_SECONDS
    then (Return market1, tr ++ [Sleep POLL_INTERVAL_SECONDS])
    else if fires settings market1 (clock_now io) winner_price winner_is_yes
    then
      (Return (set_last_snipe_ts market1 (clock_now io)),
       tr ++ SnipeBuy winner_token winner_price (clock_now io)
          :: snd (snipe_buy (set_last_snipe_ts market1 (clock_now io))
                    winner_token winner_price settings io)
          ++ [Sleep POLL_INTERVAL_SECONDS])
    else (Return market1, tr ++ [Sleep POLL_INTERVAL_SECONDS]).
Proof.
  intros Hq Hu Hw. unfold monitor_step, fires. rewrite Hq, Hu, Hw.
  destruct (Qlt_bool _ _); [ reflexivity | ].
  destruct (Dec.ge _ _ && _); [ | reflexivity ].
  destruct (snipe_buy _ _ _ _ _) as [r trs]. reflexivity.
Qed.

Lemma update_history_last_snipe market prices now market1 :
  update_history market prices now = Return market1 ->
  last_snipe_ts market1 = last_snipe_ts market.
Proof.
  intros H. apply update_history_returns in H.
  destruct H as (s & _ & ->). reflexivity.
Qed.

(** What an iteration can do to the cooldown state: either it calls no
    snipe and leaves [last_snipe_ts] alone, or it is past the cooldown,
    calls [snipe_buy] once and has set [last_snipe_ts] to [now]. *)
Lemma monitor_step_cases settings market io :
  (snipe_times (snd (monitor_step settings market io)) = []
   /\ posts_to "/orders" (snd (monitor_step settings market io)) = 0%nat
   /\ forall market',
        fst (monitor_step settings market io) = Return market' ->
        last_snipe_ts market' = last_snipe_ts market)
  \/ (Qlt_bool (clock_now io - last_snipe_ts market) HISTORY_WINDOW_SECONDS = false
      /\ snipe_times (snd (monitor_step settings market io)) = [clock_now io]
      /\ exists market',
           fst (monitor_step settings market io) = Return market'
           /\ last_snipe_ts market' = clock_now io).
Proof.
  destruct (get_prices (quotes io) market) as [fetched tr] eqn:Hq.
  destruct (get_prices_trace _ _ _ _ Hq) as [Htr Hpo].
  assert (Hquiet : snipe_times (tr ++ [Sleep POLL_INTERVAL_SECONDS]) = []
                   /\ posts_to "/orders" (tr ++ [Sleep POLL_INTERVAL_SECONDS]) = 0%nat).
  { rewrite snipe_times_app, posts_to_app, Htr, Hpo. split; reflexivity. }
  destruct Hquiet as [Hq1 Hq2].
  destruct fetched as [ [ prices | ] | e ].
  - destruct (get_prices_loop_some _ _ _ _ _ Hq) as [Hyes Hno].
    destruct (lookups_succeed_intro market prices Hyes Hno) as (_ & _ & _ & Hup).
    destruct (Hup (clock_history io)) as (market1 & Hu & [[[tok price] is_yes] Hw]).
    pose proof (update_history_last_snipe _ _ _ _ Hu) as Hlast.
    rewrite (monitor_step_quoted settings _ _ _ _ _ _ _ _ Hq Hu Hw).
    rewrite Hlast.
    destruct (Qlt_bool _ _) eqn:Hcool.
    + left. cbn [fst snd].
      split; [ exact Hq1 | split; [ exact Hq2 | intros m' [= <-]; exact Hlast ] ].
    + destruct (fires _ _ _ _ _).
      * right. cbn [fst snd].
        rewrite snipe_times_app, Htr, snipe_times_snipe.
        rewrite snipe_times_app, snipe_buy_trace.
        split; [ reflexivity | split; [ reflexivity | ] ].
        eexists. split; reflexivity.
      * left. cbn [fst snd].
        split; [ exact Hq1 | split; [ exact Hq2 | intros m' [= <-]; exact Hlast ] ].
  - left. unfold monitor_step. rewrite Hq. cbn [fst snd].
    split; [ exact Hq1 | split; [ exact Hq2 | intros m' [= <-]; reflexivity ] ].
  - left. unfold monitor_step. rewrite Hq. cbn [fst snd].
    split; [ exact Htr | split; [ exact Hpo | discriminate ] ].
Qed.

End MonitorFacts.

Lemma spaced_comp (a b : Q) (times : list Q) :
  a == b -> spaced a times -> spaced b times.
Proof.
  destruct times as [ | t rest ]; cbn; [ trivial | ].
  intros E [H1 H2]. split; [ lra | exact H2 ].
Qed.

Lemma Qlt_bool_true (a b : Q) : Qlt_bool a b = true <-> a < b.
Proof.
  unfold Qlt_bool. rewrite negb_true_iff. apply Qle_bool_false.
Qed.

Lemma Qlt_bool_false (a b : Q) : Qlt_bool a b = false <-> b <= a.
Proof.
  unfold Qlt_bool. rewrite negb_false_iff. apply Qle_bool_iff.
Qed.

Lemma snipe_event_time (token : string) (price t : Q) (tr : list event) :
  In (SnipeBuy token price t) tr -> In t (snipe_times tr).
Proof.
  induction tr as [ | ev tr IH ]; [ intros [] | ].
  intros [-> | H].
  - left. reflexivity.
  - destruct ev; cbn; auto.
Qed.

Section Cooldown.

Context {signed_order receipt : Type}.
Implicit Types (io : @poll_io signed_order receipt).

Lemma monitor_market_spaced settings
    (polls : list (@poll_io signed_order receipt)) :
  forall market,
    spaced (last_snipe_ts market)
      (snipe_times (snd (monitor_market settings market polls))).
Proof.
  induction polls as [ | io rest IH ]; intros market; cbn [monitor_market].
  - exact I.
  - pose proof (monitor_step_cases settings market io) as Hcases.
    destruct (monitor_step settings market io) as [ [ market' | e ] tr ];
      cbn [fst snd] in Hcases.
    + specialize (IH market').
      destruct (monitor_market settings market' rest) as [r tr'].
      cbn [snd] in *. rewrite snipe_times_app.
      destruct Hcases as [(Hnone & _ & Hlast) | (Hcool & Hone & m & [= <-] & Hlast)].
      * rewrite Hnone, (Hlast market' eq_refl) in *. exact IH.
      * rewrite Hone. cbn [app spaced].
        apply Qlt_bool_false in Hcool. split; [ exact Hcool | ].
        rewrite Hlast in IH. exact IH.
    + cbn [snd].
      destruct Hcases as [(Hnone & _) | (_ & _ & m & Hm & _)];
        [ rewrite Hnone; exact I | discriminate ].
Qed.

(** The state and the snipes of an iteration do not depend on what the
    order builder and the [/orders] endpoint do. *)
Lemma monitor_step_execution_irrelevant settings market io io' :
  quotes io = quotes io' ->
  clock_history io = clock_history io' ->
  clock_now io = clock_now io' ->
  fst (monitor_step settings market io) = fst (monitor_step settings market io')
  /\ snipe_times (snd (monitor_step settings market io))
     = snipe_times (snd (monitor_step settings market io')).
Proof.
  intros Eq Eh En.
  destruct (get_prices (quotes io) market) as [fetched tr] eqn:Hq.
  assert (Hq' : get_prices (quotes io') market = (fetched, tr))
    by (rewrite <- Eq; exact Hq).
  destruct fetched as [ [ prices | ] | e ].
  - destruct (get_prices_loop_some _ _ _ _ _ Hq) as [Hyes Hno].
    destruct (lookups_succeed_intro market prices Hyes Hno) as (_ & _ & _ & Hup).
    destruct (Hup (clock_history io)) as (market1 & Hu & [[[tok price] is_yes] Hw]).
    assert (Hu' : update_history market prices (clock_history io') = Return market1)
      by (rewrite <- Eh; exact Hu).
    rewrite (monitor_step_quoted settings _ io _ _ _ _ _ _ Hq Hu Hw).
    rewrite (monitor_step_quoted settings _ io' _ _ _ _ _ _ Hq' Hu' Hw).
    rewrite <- En.
    destruct (Qlt_bool _ _); [ split; reflexivity | ].
    destruct (fires _ _ _ _ _); [ | split; reflexivity ].
    cbn [fst snd]. split; [ reflexivity | ].
    rewrite !snipe_times_app, !snipe_times_snipe, !snipe_times_app,
      !snipe_buy_trace.
    reflexivity.
  - unfold monitor_step. rewrite Hq, Hq'. split; reflexivity.
  - unfold monitor_step. rewrite Hq, Hq'. split; reflexivity.
Qed.

End Cooldown.

(** C3.  When an iteration of [monitor_market] triggers at time [now], the
    market handed to [snipe_buy] already has [last_snipe_ts = now], and so
    has the market after the iteration, whatever the execution did.  An
    iteration at a time [now] with [now - last_snipe_ts <
    HISTORY_WINDOW_SECONDS] evaluates no signal: it calls no [snipe_buy],
    posts nothing to [/orders] and leaves [last_snipe_ts] unchanged.  Hence
    in every run successive snipes are at least [HISTORY_WINDOW_SECONDS]
    apart, and neither the state nor the snipes depend on the outcome of the
    order builder or of the submission. *)
Theorem cooldown_suppression {signed_order receipt : Type} :
  (forall settings market (io : @poll_io signed_order receipt) token price t,
     In (SnipeBuy token price t) (snd (monitor_step settings market io)) ->
     t = clock_now io
     /\ exists market',
          fst (monitor_step settings market io) = Return market'
          /\ last_snipe_ts market' = clock_now io)
  /\ (forall settings market (io : @poll_io signed_order receipt),
        clock_now io - last_snipe_ts market < HISTORY_WINDOW_SECONDS ->
        snipe_times (snd (monitor_step settings market io)) = []
        /\ posts_to "/orders" (snd (monitor_step settings market io)) = 0%nat
        /\ forall market',
             fst (monitor_step settings market io) = Return market' ->
             last_snipe_ts market' = last_snipe_ts market)
  /\ (forall settings market (polls : list (@poll_io signed_order receipt)),
        spaced (last_snipe_ts market)
          (snipe_times (snd (monitor_market settings market polls))))
  /\ (forall settings market (io io' : @poll_io signed_order receipt),
        quotes io = quotes io' ->
        clock_history io = clock_history io' ->
        clock_now io = clock_now io' ->
        fst (monitor_step settings market io) = fst (monitor_step settings market io')
        /\ snipe_times (snd (monitor_step settings market io))
           = snipe_times (snd (monitor_step settings market io'))).
Proof.
  split; [ | split; [ | split ] ].
  - intros settings market io token price t Hin.
    apply snipe_event_time in Hin.
    destruct (monitor_step_cases settings market io)
      as [(Hnone & _) | (_ & Hone & Hstate)].
    + rewrite Hnone in Hin. destruct Hin.
    + rewrite Hone in Hin. destruct Hin as [<- | []].
      split; [ reflexivity | exact Hstate ].
  - intros settings market io Hcool.
    apply Qlt_bool_true in Hcool.
    destruct (monitor_step_cases settings market io)
      as [Hquiet | (Hpast & _)]; [ exact Hquiet | congruence ].
  - intros settings market polls. apply monitor_market_spaced.
  - intros settings market io io'. apply monitor_step_execution_irrelevant.
Qed.

(** C4.  An iteration that obtained prices and is past the cooldown calls
    [snipe_buy] exactly when [winner_price >= settings.price_threshold] and
    [detect_spike] holds; with a threshold of 0.97 and a winning price of
    0.96 it calls no snipe, whatever the spike signal. *)
Theorem snipe_iff_both_gates {signed_order receipt : Type}
    (settings : Settings) (market : Market)
    (io : @poll_io signed_order receipt)
    (prices : gmap string Q) (tr : list event) (market1 : Market)
    (winner_token : string) (winner_price : Q) (winner_is_yes : bool) :
  get_prices (quotes io) market = (Return (Some prices), tr) ->
  update_history market prices (clock_history io) = Return market1 ->
  determine_winner prices market1
    = Return (winner_token, winner_price, winner_is_yes) ->
  Qlt_bool (clock_now io - last_snipe_ts market1) HISTORY_WINDOW_SECONDS = false ->
  gates_decide settings market io market1 winner_price winner_is_yes.
Proof.
  intros Hq Hu Hw Hcool. unfold gates_decide.
  rewrite (monitor_step_quoted settings _ _ _ _ _ _ _ _ Hq Hu Hw), Hcool.
  destruct (get_prices_trace _ _ _ _ Hq) as [Htr Hpo].
  unfold fires, Dec.ge.
  destruct (Qle_bool (price_threshold settings) winner_price) eqn:Hprice;
    destruct (detect_spike _ _ _ _ _) eqn:Hspike; cbn [andb snd];
    rewrite ?snipe_times_app, ?snipe_times_snipe, ?snipe_times_app,
      ?snipe_buy_trace, ?posts_to_app, Htr, ?Hpo; cbn [app snipe_times omap posts_to];
    try apply Qle_bool_iff in Hprice; try apply Qle_bool_false in Hprice.
  - split; [ tauto | ]. split; [ split; [ discriminate | tauto ] | ].
    intros E1 E2. lra.
  - split; [ split; [ discriminate | intros [_ H]; discriminate ] | ].
    split; [ split; [ intros _ [_ H]; discriminate | reflexivity ] | ].
    intros _ _. split; reflexivity.
  - split; [ split; [ discriminate | intros [H _]; lra ] | ].
    split; [ split; [ intros _ [H _]; lra | reflexivity ] | ].
    intros _ _. split; reflexivity.
  - split; [ split; [ discriminate | intros [H _]; lra ] | ].
    split; [ split; [ intros _ [H _]; lra | reflexivity ] | ].
    intros _ _. split; reflexivity.
Qed.

Lemma snipe_iff_both_gates_witness :
  get_prices (quotes scenario_c_io) scenario_c_market
    = (Return (Some scenario_c_prices), [Post "/prices"])
  /\ update_history scenario_c_market scenario_c_prices (clock_history scenario_c_io)
     = Return scenario_c_market1
  /\ determine_winner scenario_c_prices scenario_c_market1
     = Return ("Y", 96 # 100, true)
  /\ Qlt_bool (clock_now scenario_c_io - last_snipe_ts scenario_c_market1)
       HISTORY_WINDOW_SECONDS = false
  /\ detect_spike (price_history scenario_c_market1) (clock_now scenario_c_io)
       (96 # 100) true (spike_threshold scenario_c_settings) = true
  /\ gates_decide scenario_c_settings scenario_c_market scenario_c_io
       scenario_c_market1 (96 # 100) true.
Proof.
  assert (Hq : get_prices (quotes scenario_c_io) scenario_c_market
               = (Return (Some scenario_c_prices), [Post "/prices"]))
    by (vm_compute; reflexivity).
  assert (Hu : update_history scenario_c_market scenario_c_prices
                 (clock_history scenario_c_io) = Return scenario_c_market1)
    by (vm_compute; reflexivity).
  assert (Hw : determine_winner scenario_c_prices scenario_c_market1
               = Return ("Y", 96 # 100, true))
    by (vm_compute; reflexivity).
  assert (Hc : Qlt_bool (clock_now scenario_c_io - last_snipe_ts scenario_c_market1)
                 HISTORY_WINDOW_SECONDS = false)
    by (vm_compute; reflexivity).
  assert (Hs : detect_spike (price_history scenario_c_market1)
                 (clock_now scenario_c_io) (96 # 100) true
                 (spike_threshold scenario_c_settings) = true)
    by (vm_compute; reflexivity).
  repeat (split; [ assumption | ]).
  exact (snipe_iff_both_gates scenario_c_settings scenario_c_market scenario_c_io
           _ _ _ _ _ _ Hq Hu Hw Hc).
Defined.

(** The first snipe fails and the spike still qualifies 0.2 s and 0.4 s
    later: [snipe_buy] is called once. *)
Example one_snipe_per_window :
  snipe_times
    (snd (monitor_market scenario_c_settings scenario_c_market
            [failing_poll 1003 (98 # 100); failing_poll (10032 # 10) (98 # 100);
             failing_poll (10034 # 10) (98 # 100)]))
  = [1003].
Proof. vm_compute. reflexivity. Qed.

(** A fresh spike after the window has passed is sniped again. *)
Example snipes_again_after_window :
  snipe_times
    (snd (monitor_market scenario_c_settings scenario_c_market
            [failing_poll 1003 (98 # 100); failing_poll 1008 (80 # 100);
             failing_poll (10135 # 10) (98 # 100)]))
  = [1003; 10135 # 10].
Proof. vm_compute. reflexivity. Qed.

(** * Further properties of the pipeline *)

(** ** The quote client: attempts, sleeps and parsing *)

(** The loop over attempts [a .. a+n-1] whose first [k] outcomes are
    transient. *)
Lemma get_prices_loop_skip (responses : nat -> outcome (list entry))
    (market : Market) (k : nat) :
  forall a n,
    (forall j, (a <= j < a + k)%nat -> transient (responses j)) ->
    fst (get_prices_loop (seq a (k + n)) responses market)
    = fst (get_prices_loop (seq (a + k) n) responses market)
    /\ posts_to "/prices" (snd (get_prices_loop (seq a (k + n)) responses market))
       = (k + posts_to "/prices"
                (snd (get_prices_loop (seq (a + k) n) responses market)))%nat.
Proof.
  induction k as [ | k IH ]; intros a n Hall.
  - rewrite Nat.add_0_r. split; reflexivity.
  - cbn [Nat.add seq get_prices_loop].
    destruct (IH (S a) n) as [IHr IHp]; [ intros j Hj; apply Hall; lia | ].
    replace (a + S k)%nat with (S a + k)%nat by lia.
    destruct (Hall a ltac:(lia)) as [E | E]; rewrite E;
      destruct (get_prices_loop (seq (S a) (k + n)) responses market) as [r tr];
      cbn [fst snd] in *;
      rewrite posts_to_post, posts_to_sleep, IHp;
      (split; [ exact IHr | reflexivity ]).
Qed.

(** X1.  [get_prices] ends at the first attempt that meets neither a rate
    limit nor a transient error: after [k] such attempts it has sent [k + 1]
    requests, and it returns what the second [try] block makes of the body
    -- a malformed body is not retried -- or lets the unexpected exception
    through. *)
Theorem get_prices_stops_at_first_answer
    (responses : nat -> outcome (list entry)) (market : Market) (k : nat) :
  (k < MAX_RETRIES)%nat ->
  (forall j, (j < k)%nat -> transient (responses j)) ->
  (forall raw, responses k = Body raw ->
     fst (get_prices responses market) = parse_prices market raw
     /\ posts_to "/prices" (snd (get_prices responses market)) = S k)
  /\ (forall e, responses k = Escapes e ->
     fst (get_prices responses market) = Raise e
     /\ posts_to "/prices" (snd (get_prices responses market)) = S k).
Proof.
  intros Hk Hall. unfold get_prices.
  replace MAX_RETRIES with (k + S (MAX_RETRIES - S k))%nat by lia.
  destruct (get_prices_loop_skip responses market k 0 (S (MAX_RETRIES - S k)))
    as [Hr Hp]; [ intros j Hj; apply Hall; lia | ].
  rewrite Hr, Hp. cbn [Nat.add seq get_prices_loop].
  split.
  - intros raw E. rewrite E. cbn [fst snd].
    rewrite posts_to_post. split; [ reflexivity | cbn; lia ].
  - intros e E. rewrite E. cbn [fst snd].
    rewrite posts_to_post. split; [ reflexivity | cbn; lia ].
Qed.

Lemma get_prices_stops_at_first_answer_witness :
  (2 < MAX_RETRIES)%nat
  /\ (forall j, (j < 2)%nat -> transient (limited_twice requoted j))
  /\ fst (get_prices (limited_twice requoted) demo_market)
     = parse_prices demo_market requoted
  /\ posts_to "/prices" (snd (get_prices (limited_twice requoted) demo_market)) = 3%nat.
Proof.
  assert (Hk : (2 < MAX_RETRIES)%nat) by (unfold MAX_RETRIES; lia).
  assert (Hall : forall (raw : list entry) j, (j < 2)%nat ->
                   transient (limited_twice raw j)).
  { intros raw j Hj. left. unfold limited_twice.
    destruct (Nat.ltb_spec j 2); [ reflexivity | lia ]. }
  split; [ exact Hk | split; [ apply Hall | ] ].
  apply (get_prices_stops_at_first_answer
           (limited_twice requoted) demo_market 2 Hk (Hall requoted)).
  reflexivity.
Defined.

Lemma backoff_bounds (attempt : nat) : 1 <= backoff attempt <= 5.
Proof.
  unfold backoff.
  assert (H : (1 <= 2 ^ Z.of_nat attempt)%Z)
    by (apply (Z.pow_le_mono_r 2 0); lia).
  split.
  - change 1 with (inject_Z 1). rewrite <- Zle_Qle. lia.
  - change 5 with (inject_Z 5). rewrite <- Zle_Qle. lia.
Qed.

Lemma backoff_total_nonneg (attempts : list nat) : 0 <= backoff_total attempts.
Proof.
  induction attempts as [ | a rest IH ]; cbn [backoff_total]; [ lra | ].
  pose proof (backoff_bounds a). lra.
Qed.

Lemma get_prices_loop_sleeps (responses : nat -> outcome (list entry))
    (market : Market) (attempts : list nat) :
  0 <= sleeps (snd (get_prices_loop attempts responses market))
    <= backoff_total attempts.
Proof.
  induction attempts as [ | a rest IH ]; cbn [get_prices_loop backoff_total].
  - cbn. lra.
  - pose proof (backoff_bounds a) as Hb.
    pose proof (backoff_total_nonneg rest) as Ht.
    destruct (responses a) as [ | | raw | e ];
      try destruct (get_prices_loop rest responses market) as [r tr];
      cbn [snd sleeps] in *; lra.
Qed.

Lemma submit_order_loop_sleeps {receipt : Type}
    (responses : nat -> outcome receipt) (attempts : list nat) :
  0 <= sleeps (snd (submit_order_loop attempts responses))
    <= backoff_total attempts.
Proof.
  induction attempts as [ | a rest IH ]; cbn [submit_order_loop backoff_total].
  - cbn. lra.
  - pose proof (backoff_bounds a) as Hb.
    pose proof (backoff_total_nonneg rest) as Ht.
    destruct (responses a) as [ | | raw | e ];
      try destruct (submit_order_loop rest responses) as [r tr];
      cbn [snd sleeps] in *; lra.
Qed.

(** X2.  Whatever the endpoints answer, one call of [get_prices] and one
    call of [submit_order] sleep for at most 1 + 2 + 4 = 7 seconds between
    their attempts, and a call whose attempts all fail transiently sleeps
    for exactly that long. *)
Theorem retry_sleep_bounded {signed_order receipt : Type} :
  (forall responses market,
     0 <= sleeps (snd (get_prices responses market)) <= 7)
  /\ (forall (order : signed_order) (responses : nat -> outcome receipt),
        0 <= sleeps (snd (submit_order order responses)) <= 7)
  /\ (forall market, sleeps (snd (get_prices always_failing market)) == 7)
  /\ (forall (order : signed_order),
        sleeps (snd (submit_order order (@always_failing receipt))) == 7).
Proof.
  assert (Hbudget : backoff_total (seq 0 MAX_RETRIES) == 7) by reflexivity.
  split; [ | split; [ | split ] ].
  - intros responses market.
    pose proof (get_prices_loop_sleeps responses market (seq 0 MAX_RETRIES)) as H.
    unfold get_prices. lra.
  - intros order responses.
    pose proof (submit_order_loop_sleeps responses (seq 0 MAX_RETRIES)) as H.
    unfold submit_order. lra.
  - intros market. reflexivity.
  - intros order. reflexivity.
Qed.

Lemma collect_prices_unconvertible (raw : list entry) :
  forall acc,
    existsb unconvertible raw = true ->
    collect_prices raw acc = Raise InvalidOperation.
Proof.
  induction raw as [ | e rest IH ]; intros acc; cbn [existsb collect_prices].
  - discriminate.
  - unfold unconvertible at 1.
    destruct (entry_token_id e) as [ tok | ], (entry_price e) as [ [ d | ] | ];
      cbn [orb]; auto.
Qed.

Lemma collect_prices_convertible (raw : list entry) :
  forall acc,
    existsb unconvertible raw = false ->
    exists prices,
      collect_prices raw acc = Return prices
      /\ forall token,
           prices !! token = match last_quote token raw with
                             | Some d => Some d
                             | None => acc !! token
                             end.
Proof.
  induction raw as [ | e rest IH ]; intros acc; cbn [existsb collect_prices last_quote].
  - intros _. exists acc. split; [ reflexivity | intros token; reflexivity ].
  - unfold unconvertible at 1, quote_for.
    destruct (entry_token_id e) as [ tok | ], (entry_price e) as [ [ d | ] | ];
      cbn [orb]; try discriminate; intros Hrest;
      match goal with
      | |- context [collect_prices rest ?a] =>
          destruct (IH a Hrest) as (prices & Hc & Hl)
      end;
      exists prices; (split; [ exact Hc | ]); intros token; rewrite Hl;
      destruct (last_quote token rest); try reflexivity.
    destruct (decide (tok = token)) as [-> | Hne].
    + apply lookup_insert_eq.
    + apply lookup_insert_ne, Hne.
Qed.

(** X3.  On a response without unconvertible prices the second [try] block
    of [get_prices] returns [None] exactly when the yes or the no token has
    no entry carrying both keys, and otherwise the mapping that gives every
    token the price of the last such entry that names it. *)
Theorem parse_prices_last_quote_wins (market : Market) (raw : list entry) :
  existsb unconvertible raw = false ->
  (forall prices,
     parse_prices market raw = Return (Some prices)
     <-> is_Some (last_quote (yes_token market) raw)
         /\ is_Some (last_quote (no_token market) raw)
         /\ forall token, prices !! token = last_quote token raw)
  /\ (parse_prices market raw = Return None
      <-> last_quote (yes_token market) raw = None
          \/ last_quote (no_token market) raw = None).
Proof.
  intros Hok.
  destruct (collect_prices_convertible raw ∅ Hok) as (collected & Hc & Hl).
  assert (Hl' : forall token, collected !! token = last_quote token raw).
  { intros token. rewrite Hl, lookup_empty.
    destruct (last_quote token raw); reflexivity. }
  unfold parse_prices. rewrite Hc. cbn.
  rewrite !Hl'.
  destruct (last_quote (yes_token market) raw) as [ y | ] eqn:Ey;
    destruct (last_quote (no_token market) raw) as [ n | ] eqn:En;
    (rewrite ?bool_decide_eq_true_2 by (eexists; reflexivity));
    (rewrite ?bool_decide_eq_false_2 by (intros [? ?]; discriminate));
    rewrite ?andb_false_r; cbn.
  - split.
    + intros prices. split.
      * intros [= <-]. repeat split; eauto.
      * intros (_ & _ & Hp). do 2 f_equal. apply map_eq. intros token.
        rewrite Hl', Hp. reflexivity.
    + split; [ discriminate | intros [H | H]; discriminate ].
  - split; [ | split; [ right | ]; reflexivity ].
    intros prices. split; [ discriminate | intros (_ & [? H] & _); discriminate ].
  - split; [ | split; [ left | ]; reflexivity ].
    intros prices. split; [ discriminate | intros ([? H] & _); discriminate ].
  - split; [ | split; [ left | ]; reflexivity ].
    intros prices. split; [ discriminate | intros ([? H] & _); discriminate ].
Qed.

Lemma parse_prices_last_quote_wins_witness :
  existsb unconvertible requoted = false
  /\ forall token, good_prices !! token = last_quote token requoted.
Proof.
  assert (Hok : existsb unconvertible requoted = false) by reflexivity.
  split; [ exact Hok | ].
  destruct (parse_prices_last_quote_wins demo_market requoted Hok) as [Hsome _].
  apply (Hsome good_prices). vm_compute. reflexivity.
Defined.

Lemma parse_prices_unconvertible (market : Market) (raw : list entry) :
  existsb unconvertible raw = true ->
  parse_prices market raw = Raise InvalidOperation.
Proof.
  intros H. unfold parse_prices.
  rewrite (collect_prices_unconvertible raw ∅ H). reflexivity.
Qed.

(** X4.  A price that [Decimal] cannot convert is not turned into "no
    data": [decimal.InvalidOperation] is neither a [KeyError] nor a
    [ValueError], so it leaves [get_prices], and since [monitor_market]
    calls [get_prices] outside any [try] it ends the monitoring of that
    market; the polls that would follow are never made. *)
Theorem unconvertible_price_ends_monitor {signed_order receipt : Type}
    (settings : Settings) (market : Market)
    (io : @poll_io signed_order receipt) (rest : list poll_io)
    (k : nat) (raw : list entry) :
  (k < MAX_RETRIES)%nat ->
  (forall j, (j < k)%nat -> transient (quotes io j)) ->
  quotes io k = Body raw ->
  existsb unconvertible raw = true ->
  fst (get_prices (quotes io) market) = Raise InvalidOperation
  /\ monitor_market settings market (io :: rest)
     = (Raise InvalidOperation, snd (get_prices (quotes io) market))
  /\ posts_to "/prices" (snd (get_prices (quotes io) market)) = S k.
Proof.
  intros Hk Hall Hbody Hbad.
  assert (Hq : fst (get_prices (quotes io) market) = Raise InvalidOperation
               /\ posts_to "/prices" (snd (get_prices (quotes io) market)) = S k).
  { unfold get_prices.
    replace MAX_RETRIES with (k + S (MAX_RETRIES - S k))%nat by lia.
    destruct (get_prices_loop_skip (quotes io) market k 0 (S (MAX_RETRIES - S k)))
      as [Hr Hp]; [ intros j Hj; apply Hall; lia | ].
    rewrite Hr, Hp. cbn [Nat.add seq get_prices_loop]. rewrite Hbody.
    cbn [fst snd]. rewrite posts_to_post.
    split; [ apply parse_prices_unconvertible, Hbad | cbn; lia ]. }
  destruct Hq as [Hr Hp].
  split; [ exact Hr | split; [ | exact Hp ] ].
  cbn [monitor_market]. unfold monitor_step.
  destruct (get_prices (quotes io) market) as [fetched tr].
  cbn [fst snd] in *. rewrite Hr. reflexivity.
Qed.

Lemma unconvertible_price_ends_monitor_witness :
  (0 < MAX_RETRIES)%nat
  /\ (forall j, (j < 0)%nat -> transient (quotes (garbled_poll 1003) j))
  /\ quotes (garbled_poll 1003) 0 = Body garbled
  /\ existsb unconvertible garbled = true
  /\ fst (monitor_market scenario_c_settings scenario_c_market
            [garbled_poll 1003; live_poll 1004 (98 # 100)])
     = Raise InvalidOperation.
Proof.
  assert (Hk : (0 < MAX_RETRIES)%nat) by (unfold MAX_RETRIES; lia).
  assert (Hall : forall j, (j < 0)%nat -> transient (quotes (garbled_poll 1003) j))
    by (intros j Hj; lia).
  assert (Hbody : quotes (garbled_poll 1003) 0 = Body garbled) by reflexivity.
  assert (Hbad : existsb unconvertible garbled = true) by reflexivity.
  repeat (split; [ assumption | ]).
  destruct (unconvertible_price_ends_monitor scenario_c_settings scenario_c_market
              (garbled_poll 1003) [live_poll 1004 (98 # 100)] 0 garbled
              Hk Hall Hbody Hbad)
    as (_ & Hrun & _).
  rewrite Hrun. reflexivity.
Defined.

(** ** The order submitter *)

Lemma submit_order_loop_skip {receipt : Type}
    (responses : nat -> outcome receipt) (k : nat) :
  forall a n,
    (forall j, (a <= j < a + k)%nat -> transient (responses j)) ->
    fst (submit_order_loop (seq a (k + n)) responses)
    = fst (submit_order_loop (seq (a + k) n) responses)
    /\ posts_to "/orders" (snd (submit_order_loop (seq a (k + n)) responses))
       = (k + posts_to "/orders"
                (snd (submit_order_loop (seq (a + k) n) responses)))%nat.
Proof.
  induction k as [ | k IH ]; intros a n Hall.
  - rewrite Nat.add_0_r. split; reflexivity.
  - cbn [Nat.add seq submit_order_loop].
    destruct (IH (S a) n) as [IHr IHp]; [ intros j Hj; apply Hall; lia | ].
    replace (a + S k)%nat with (S a + k)%nat by lia.
    destruct (Hall a ltac:(lia)) as [E | E]; rewrite E;
      destruct (submit_order_loop (seq (S a) (k + n)) responses) as [r tr];
      cbn [fst snd] in *;
      rewrite posts_to_post, posts_to_sleep, IHp;
      (split; [ exact IHr | reflexivity ]).
Qed.

Lemma submit_order_loop_posts {receipt : Type}
    (responses : nat -> outcome receipt) (attempts : list nat) :
  (posts_to "/orders" (snd (submit_order_loop attempts responses))
   <= length attempts)%nat
  /\ posts_to "/prices" (snd (submit_order_loop attempts responses)) = 0%nat.
Proof.
  induction attempts as [ | a rest [IHo IHp] ]; cbn [submit_order_loop].
  - split; [ cbn; lia | reflexivity ].
  - destruct (responses a) as [ | | raw | e ];
      try destruct (submit_order_loop rest responses) as [r tr];
      cbn [fst snd length] in *;
      rewrite posts_to_post, (posts_to_other "/prices" "/orders") by discriminate;
      rewrite ?posts_to_sleep; (split; [ cbn; lia | assumption || reflexivity ]).
Qed.

(** X5.  [submit_order] returns the receipt of the first attempt that
    meets neither a rate limit nor a transient error and posts the order no
    further; it never posts an order more than [MAX_RETRIES] times and sends
    nothing to [/prices]. *)
Theorem submit_order_first_receipt {signed_order receipt : Type}
    (order : signed_order) (responses : nat -> outcome receipt) (k : nat) :
  (k < MAX_RETRIES)%nat ->
  (forall j, (j < k)%nat -> transient (responses j)) ->
  (forall r, responses k = Body r ->
     fst (submit_order order responses) = Return r
     /\ posts_to "/orders" (snd (submit_order order responses)) = S k)
  /\ (forall e, responses k = Escapes e ->
     fst (submit_order order responses) = Raise e
     /\ posts_to "/orders" (snd (submit_order order responses)) = S k)
  /\ (posts_to "/orders" (snd (submit_order order responses)) <= MAX_RETRIES)%nat
  /\ posts_to "/prices" (snd (submit_order order responses)) = 0%nat.
Proof.
  intros Hk Hall.
  destruct (submit_order_loop_posts responses (seq 0 MAX_RETRIES)) as [Hle Hnone].
  rewrite length_seq in Hle.
  split; [ | split; [ | split; [ exact Hle | exact Hnone ] ] ];
    unfold submit_order;
    replace MAX_RETRIES with (k + S (MAX_RETRIES - S k))%nat by lia;
    (destruct (submit_order_loop_skip responses k 0 (S (MAX_RETRIES - S k)))
      as [Hr Hp]; [ intros j Hj; apply Hall; lia | ]);
    rewrite Hr, Hp; cbn [Nat.add seq submit_order_loop].
  - intros r E. rewrite E. cbn [fst snd].
    rewrite posts_to_post. split; [ reflexivity | cbn; lia ].
  - intros e E. rewrite E. cbn [fst snd].
    rewrite posts_to_post. split; [ reflexivity | cbn; lia ].
Qed.

Lemma submit_order_first_receipt_witness :
  (2 < MAX_RETRIES)%nat
  /\ (forall j, (j < 2)%nat -> transient (limited_twice "0xabc" j))
  /\ fst (submit_order tt (limited_twice "0xabc")) = Return "0xabc"
  /\ posts_to "/orders" (snd (submit_order tt (limited_twice "0xabc"))) = 3%nat.
Proof.
  assert (Hk : (2 < MAX_RETRIES)%nat) by (unfold MAX_RETRIES; lia).
  assert (Hall : forall j, (j < 2)%nat -> transient (limited_twice "0xabc" j)).
  { intros j Hj. left. unfold limited_twice.
    destruct (Nat.ltb_spec j 2); [ reflexivity | lia ]. }
  split; [ exact Hk | split; [ exact Hall | ] ].
  apply (submit_order_first_receipt tt (limited_twice "0xabc") 2 Hk Hall).
  reflexivity.
Defined.

(** ** The monitor loop: orders, failures and state *)

Lemma posts_to_snipe (ep token : string) (price t : Q) (tr : list event) :
  posts_to ep (SnipeBuy token price t :: tr) = posts_to ep tr.
Proof. reflexivity. Qed.

Section LoopFacts.

Context {signed_order receipt : Type}.
Implicit Types (io : @poll_io signed_order receipt).

Lemma snipe_buy_posts market token price settings io :
  (posts_to "/orders" (snd (snipe_buy market token price settings io))
   <= MAX_RETRIES)%nat
  /\ (dry_run settings = true ->
      snd (snipe_buy market token price settings io) = []).
Proof.
  unfold snipe_buy.
  destruct (compute_order_quantity _ _) as [ size | e ];
    [ | split; [ cbn; lia | reflexivity ] ].
  destruct (dry_run settings); [ split; [ cbn; lia | reflexivity ] | ].
  split; [ | discriminate ].
  destruct (builder io _) as [ order | e ]; [ | cbn; lia ].
  destruct (submit_order_loop_posts (orders io) (seq 0 MAX_RETRIES)) as [Hle _].
  rewrite length_seq in Hle. unfold submit_order.
  destruct (submit_order_loop (seq 0 MAX_RETRIES) (orders io)) as [r tr].
  exact Hle.
Qed.

(** The market that an iteration leaves behind. *)
Lemma monitor_step_state settings market io market' :
  fst (monitor_step settings market io) = Return market' ->
  market' = market
  \/ exists prices market1,
       update_history market prices (clock_history io) = Return market1
       /\ (market' = market1
           \/ market' = set_last_snipe_ts market1 (clock_now io)).
Proof.
  unfold monitor_step.
  destruct (get_prices (quotes io) market) as [ [ [ prices | ] | e ] tr ];
    cbn [fst]; [ | intros [= <-]; left; reflexivity | discriminate ].
  destruct (update_history market prices (clock_history io)) as [ market1 | e ] eqn:Hu;
    [ | discriminate ].
  destruct (determine_winner prices market1) as [ [[tok price] is_yes] | e ];
    [ | discriminate ].
  destruct (Qlt_bool _ _).
  - intros [= <-]. right. exists prices, market1. split; [ exact Hu | left; reflexivity ].
  - destruct (Dec.ge _ _ && _).
    + destruct (snipe_buy _ _ _ _ _) as [r trs]. intros [= <-].
      right. exists prices, market1. split; [ exact Hu | right; reflexivity ].
    + intros [= <-]. right. exists prices, market1.
      split; [ exact Hu | left; reflexivity ].
Qed.


Lemma monitor_step_posts settings market io :
  (posts_to "/orders" (snd (monitor_step settings market io))
   <= MAX_RETRIES * length (snipe_times (snd (monitor_step settings market io))))%nat
  /\ (dry_run settings = true ->
      posts_to "/orders" (snd (monitor_step settings market io)) = 0%nat).
Proof.
  destruct (get_prices (quotes io) market) as [fetched tr] eqn:Hq.
  destruct (get_prices_trace _ _ _ _ Hq) as [Htr Hpo].
  assert (Hquiet : posts_to "/orders" (tr ++ [Sleep POLL_INTERVAL_SECONDS]) = 0%nat).
  { rewrite posts_to_app, Hpo. reflexivity. }
  destruct fetched as [ [ prices | ] | e ].
  - destruct (get_prices_loop_some _ _ _ _ _ Hq) as [Hyes Hno].
    destruct (lookups_succeed_intro market prices Hyes Hno) as (_ & _ & _ & Hup).
    destruct (Hup (clock_history io)) as (market1 & Hu & [[[tok price] is_yes] Hw]).
    rewrite (monitor_step_quoted settings _ _ _ _ _ _ _ _ Hq Hu Hw).
    destruct (Qlt_bool _ _); [ cbn [snd]; rewrite Hquiet; split; [ lia | reflexivity ] | ].
    destruct (fires _ _ _ _ _);
      [ | cbn [snd]; rewrite Hquiet; split; [ lia | reflexivity ] ].
    cbn [snd].
    destruct (snipe_buy_posts (set_last_snipe_ts market1 (clock_now io))
                tok price settings io) as [Hle Hdry].
    rewrite posts_to_app, Hpo, posts_to_snipe, posts_to_app.
    rewrite snipe_times_app, Htr, snipe_times_snipe, snipe_times_app, snipe_buy_trace.
    cbn [app length posts_to List.filter]. split.
    + unfold MAX_RETRIES in *. lia.
    + intros Hd. rewrite (Hdry Hd). reflexivity.
  - unfold monitor_step. rewrite Hq. cbn [snd]. rewrite Hquiet.
    split; [ lia | reflexivity ].
  - unfold monitor_step. rewrite Hq. cbn [snd]. rewrite Hpo.
    split; [ lia | reflexivity ].
Qed.

End LoopFacts.

(** X6.  With [dry_run] set, no run of the monitor loop posts anything to
    [/orders], whatever the prices do. *)
Theorem dry_run_never_posts {signed_order receipt : Type}
    (settings : Settings) (market : Market)
    (polls : list (@poll_io signed_order receipt)) :
  dry_run settings = true ->
  posts_to "/orders" (snd (monitor_market settings market polls)) = 0%nat.
Proof.
  intros Hd. revert market.
  induction polls as [ | io rest IH ]; intros market; cbn [monitor_market].
  - reflexivity.
  - destruct (monitor_step_posts settings market io) as [_ Hstep].
    specialize (Hstep Hd).
    destruct (monitor_step settings market io) as [ [ market' | e ] tr ];
      cbn [snd] in *; [ | exact Hstep ].
    specialize (IH market').
    destruct (monitor_market settings market' rest) as [r tr'].
    cbn [snd] in *. rewrite posts_to_app, Hstep, IH. reflexivity.
Qed.

(** X7.  Orders are posted only by snipes, and at most [MAX_RETRIES] times
    per snipe: in every run the number of requests to [/orders] is at most
    [MAX_RETRIES] times the number of [snipe_buy] calls. *)
Theorem orders_bounded_by_snipes {signed_order receipt : Type}
    (settings : Settings) (market : Market)
    (polls : list (@poll_io signed_order receipt)) :
  (posts_to "/orders" (snd (monitor_market settings market polls))
   <= MAX_RETRIES
      * length (snipe_times (snd (monitor_market settings market polls))))%nat.
Proof.
  revert market.
  induction polls as [ | io rest IH ]; intros market; cbn [monitor_market].
  - cbn. lia.
  - destruct (monitor_step_posts settings market io) as [Hstep _].
    destruct (monitor_step settings market io) as [ [ market' | e ] tr ];
      cbn [snd] in *; [ | exact Hstep ].
    specialize (IH market').
    destruct (monitor_market settings market' rest) as [r tr'].
    cbn [snd] in *.
    rewrite posts_to_app, snipe_times_app, length_app.
    unfold MAX_RETRIES in *. lia.
Qed.

Lemma dry_run_never_posts_witness :
  dry_run dry_settings = true
  /\ snipe_times (snd (monitor_market dry_settings scenario_c_market
                         [live_poll 1003 (98 # 100)])) = [1003]
  /\ posts_to "/orders" (snd (monitor_market dry_settings scenario_c_market
                                [live_poll 1003 (98 # 100)])) = 0%nat.
Proof.
  assert (Hd : dry_run dry_settings = true) by reflexivity.
  split; [ exact Hd | split; [ vm_compute; reflexivity | ] ].
  exact (dry_run_never_posts dry_settings scenario_c_market
           [live_poll 1003 (98 # 100)] Hd).
Defined.

(** A live snipe posts its order. *)
Example live_snipe_posts_once :
  posts_to "/orders" (snd (monitor_market scenario_c_settings scenario_c_market
                             [live_poll 1003 (98 # 100)])) = 1%nat.
Proof. vm_compute. reflexivity. Qed.






(** ** The spike detector inside the loop *)

Lemma filter_all_false {A : Type} (f : A -> bool) (l : list A) :
  List.Forall (fun a => f a = false) l -> List.filter f l = [].
Proof.
  induction 1 as [ | a l Ha Hl IH ]; cbn; [ reflexivity | ].
  rewrite Ha. exact IH.
Qed.

Lemma filter_stale_history (f : sample -> bool) (n : nat)
    (history : list sample) (s : sample) :
  List.Forall (fun p => f p = false) history ->
  (length (List.filter f (last_n n (history ++ [s]))) <= 1)%nat.
Proof.
  intros Hstale. unfold last_n. rewrite skipn_app, List.filter_app.
  rewrite (filter_all_false f (skipn _ history)) by (apply Forall_drop, Hstale).
  cbn [app].
  destruct (length (history ++ [s]) - n - length history)%nat;
    cbn; [ destruct (f s); cbn; lia | rewrite skipn_nil; cbn; lia ].
Qed.

Lemma detect_spike_few (history : list sample) (now wp thr : Q) (y : bool) :
  (length (List.filter (in_window now) history) <= 1)%nat ->
  detect_spike history now wp y thr = false.
Proof.
  intros H. rewrite detect_spike_unfold.
  destruct (List.filter (in_window now) history) as [ | a [ | b l ] ];
    [ reflexivity | reflexivity | cbn in H; lia ].
Qed.

(** X9.  A spike needs a baseline inside the window.  When every sample
    already in the buffer is older than [HISTORY_WINDOW_SECONDS] -- in
    particular on the first poll of a market, or after a long run of failed
    polls -- the iteration calls no snipe and posts no order, however high
    the price. *)
Theorem stale_history_never_snipes {signed_order receipt : Type}
    (settings : Settings) (market : Market) (io : @poll_io signed_order receipt) :
  (forall p, In p (price_history market) ->
             HISTORY_WINDOW_SECONDS < clock_now io - ts p) ->
  snipe_times (snd (monitor_step settings market io)) = []
  /\ posts_to "/orders" (snd (monitor_step settings market io)) = 0%nat.
Proof.
  intros Hold.
  assert (Hstale : List.Forall (fun p => in_window (clock_now io) p = false)
                     (price_history market)).
  { apply List.Forall_forall. intros p Hp. unfold in_window.
    apply Qle_bool_false, Hold, Hp. }
  destruct (get_prices (quotes io) market) as [fetched tr] eqn:Hq.
  destruct (get_prices_trace _ _ _ _ Hq) as [Htr Hpo].
  assert (Hquiet : snipe_times (tr ++ [Sleep POLL_INTERVAL_SECONDS]) = []
                   /\ posts_to "/orders" (tr ++ [Sleep POLL_INTERVAL_SECONDS]) = 0%nat).
  { rewrite snipe_times_app, posts_to_app, Htr, Hpo. split; reflexivity. }
  destruct fetched as [ [ prices | ] | e ].
  - destruct (get_prices_loop_some _ _ _ _ _ Hq) as [Hyes Hno].
    destruct (lookups_succeed_intro market prices Hyes Hno) as (_ & _ & _ & Hup).
    destruct (Hup (clock_history io)) as (market1 & Hu & [[[tok price] is_yes] Hw]).
    rewrite (monitor_step_quoted settings _ _ _ _ _ _ _ _ Hq Hu Hw).
    destruct (update_history_returns _ _ _ _ Hu) as (s & _ & ->).
    unfold fires. cbn [price_history set_price_history].
    rewrite detect_spike_few by (apply filter_stale_history, Hstale).
    rewrite andb_false_r.
    destruct (Qlt_bool _ _); exact Hquiet.
  - unfold monitor_step. rewrite Hq. exact Hquiet.
  - unfold monitor_step. rewrite Hq. split; assumption.
Qed.

Lemma stale_history_never_snipes_witness :
  (forall p, In p (price_history scenario_c_market) ->
             HISTORY_WINDOW_SECONDS < clock_now (live_poll 1020 (99 # 100)) - ts p)
  /\ snipe_times (snd (monitor_step scenario_c_settings scenario_c_market
                         (live_poll 1020 (99 # 100)))) = [].
Proof.
  assert (H : forall p, In p (price_history scenario_c_market) ->
                HISTORY_WINDOW_SECONDS < clock_now (live_poll 1020 (99 # 100)) - ts p)
    by (intros p [<- | []]; reflexivity).
  split; [ exact H | ].
  apply (stale_history_never_snipes scenario_c_settings scenario_c_market
           (live_poll 1020 (99 # 100)) H).
Defined.

(** ** Invariants of the market along a run *)

Lemma strongly_sorted_snoc {A : Type} (R : A -> A -> Prop) (l : list A) (x : A) :
  StronglySorted R l -> List.Forall (fun a => R a x) l ->
  StronglySorted R (l ++ [x]).
Proof.
  induction 1 as [ | a l Hl IH Ha ]; intros Hx; cbn.
  - repeat constructor.
  - inversion Hx as [ | a' l' Hax Hlx ]; subst.
    constructor; [ apply IH, Hlx | ].
    apply List.Forall_app. split; [ exact Ha | repeat constructor; exact Hax ].
Qed.

Lemma strongly_sorted_skipn {A : Type} (R : A -> A -> Prop) (k : nat) :
  forall l, StronglySorted R l -> StronglySorted R (skipn k l).
Proof.
  induction k as [ | k IH ]; intros l Hs; [ exact Hs | ].
  destruct l as [ | a l ]; [ exact Hs | ].
  cbn. apply IH. inversion Hs; assumption.
Qed.

Lemma not_after_later (t t' : Q) (history : list sample) :
  t <= t' -> not_after t history -> not_after t' history.
Proof.
  intros Ht H. unfold not_after in *.
  eapply List.Forall_impl; [ | exact H ]. cbn. intros p Hp. lra.
Qed.

(** One call of [update_history] at a time not before any sample. *)
Lemma update_history_keeps_order (market market' : Market)
    (prices : gmap string Q) (now : Q) :
  time_ordered (price_history market) ->
  not_after now (price_history market) ->
  update_history market prices now = Return market' ->
  time_ordered (price_history market')
  /\ not_after now (price_history market').
Proof.
  intros Hord Hbefore Hu.
  destruct (update_history_returns _ _ _ _ Hu) as (s & Hs & ->).
  assert (Ets : ts s = now).
  { unfold sample_taken in Hs. cbn [fst snd] in Hs.
    destruct (prices !! yes_token market), (prices !! no_token market);
      try discriminate.
    injection Hs as <-. reflexivity. }
  cbn [price_history set_price_history]. unfold last_n. split.
  - apply strongly_sorted_skipn, strongly_sorted_snoc; [ exact Hord | ].
    rewrite Ets. exact Hbefore.
  - apply Forall_drop, List.Forall_app. split; [ exact Hbefore | ].
    repeat constructor. rewrite Ets. apply Qle_refl.
Qed.

Section RunInvariants.

Context {signed_order receipt : Type}.
Implicit Types (io : @poll_io signed_order receipt).

Lemma monitor_step_keeps_order settings market io market' (t : Q) :
  time_ordered (price_history market) ->
  not_after t (price_history market) ->
  t <= clock_history io ->
  fst (monitor_step settings market io) = Return market' ->
  time_ordered (price_history market')
  /\ not_after (clock_history io) (price_history market').
Proof.
  intros Hord Hbefore Ht Hstep.
  apply (not_after_later _ _ _ Ht) in Hbefore.
  destruct (monitor_step_state _ _ _ _ Hstep)
    as [-> | (prices & market1 & Hu & [-> | ->])].
  - split; assumption.
  - eapply update_history_keeps_order; eassumption.
  - cbn [price_history set_last_snipe_ts].
    eapply update_history_keeps_order; eassumption.
Qed.

Lemma update_history_identity market prices now market' :
  update_history market prices now = Return market' ->
  condition_id market' = condition_id market
  /\ yes_token market' = yes_token market
  /\ no_token market' = no_token market
  /\ name market' = name market
  /\ (length (price_history market')
      <= Nat.max (length (price_history market)) HISTORY_BUFFER_SIZE)%nat.
Proof.
  intros Hu. destruct (update_history_returns _ _ _ _ Hu) as (s & _ & ->).
  cbn. repeat (split; [ reflexivity | ]).
  rewrite length_last_n. lia.
Qed.

Lemma monitor_step_identity settings market io market' :
  fst (monitor_step settings market io) = Return market' ->
  condition_id market' = condition_id market
  /\ yes_token market' = yes_token market
  /\ no_token market' = no_token market
  /\ name market' = name market
  /\ (length (price_history market')
      <= Nat.max (length (price_history market)) HISTORY_BUFFER_SIZE)%nat.
Proof.
  intros Hstep.
  destruct (monitor_step_state _ _ _ _ Hstep)
    as [-> | (prices & market1 & Hu & [-> | ->])].
  - repeat (split; [ reflexivity | ]). lia.
  - eapply update_history_identity, Hu.
  - cbn. eapply update_history_identity, Hu.
Qed.

End RunInvariants.

(** X10.  The loop keeps the history in timestamp order: from a market
    whose samples are ordered and not later than [t], a run whose clock
    readings start at or after [t] and never go back ends with an ordered
    history. *)
Theorem history_stays_time_ordered {signed_order receipt : Type}
    (settings : Settings) (market market' : Market) (t : Q)
    (polls : list (@poll_io signed_order receipt)) :
  time_ordered (price_history market) ->
  not_after t (price_history market) ->
  clock_ordered t polls ->
  fst (monitor_market settings market polls) = Return market' ->
  time_ordered (price_history market').
Proof.
  revert market t.
  induction polls as [ | io rest IH ]; intros market t Hord Hbefore Hclock;
    cbn [monitor_market].
  - intros [= <-]. exact Hord.
  - destruct Hclock as [Ht Hrest].
    pose proof (monitor_step_keeps_order settings market io) as Hstep.
    destruct (monitor_step settings market io) as [ [ market1 | e ] tr ];
      [ | discriminate ].
    destruct (Hstep market1 t Hord Hbefore Ht eq_refl) as [Hord1 Hbefore1].
    specialize (IH market1 (clock_history io) Hord1 Hbefore1 Hrest).
    destruct (monitor_market settings market1 rest) as [r tr'].
    exact IH.
Qed.

Lemma history_stays_time_ordered_witness :
  time_ordered (price_history scenario_c_market)
  /\ not_after 1000 (price_history scenario_c_market)
  /\ clock_ordered 1000 [live_poll 1003 (98 # 100); live_poll 1004 (99 # 100)]
  /\ exists market',
       fst (monitor_market scenario_c_settings scenario_c_market
              [live_poll 1003 (98 # 100); live_poll 1004 (99 # 100)])
       = Return market'
       /\ length (price_history market') = 3%nat
       /\ time_ordered (price_history market').
Proof.
  assert (Hord : time_ordered (price_history scenario_c_market))
    by (repeat constructor).
  assert (Hbefore : not_after 1000 (price_history scenario_c_market))
    by (repeat constructor; discriminate).
  assert (Hclock : clock_ordered 1000
                     [live_poll 1003 (98 # 100); live_poll 1004 (99 # 100)])
    by (cbn; repeat split; discriminate).
  split; [ exact Hord | split; [ exact Hbefore | split; [ exact Hclock | ] ] ].
  eexists. split; [ vm_compute; reflexivity | ].
  split; [ reflexivity | ].
  apply (history_stays_time_ordered scenario_c_settings scenario_c_market _ 1000
           [live_poll 1003 (98 # 100); live_poll 1004 (99 # 100)]
           Hord Hbefore Hclock).
  vm_compute. reflexivity.
Defined.

(** X11.  A run never changes the identity of the market it monitors --
    condition id, the two token ids and the name stay as configured -- and
    never lets the buffer grow beyond [HISTORY_BUFFER_SIZE] (or beyond the
    length it started with, if that was larger). *)
Theorem run_keeps_identity_and_capacity {signed_order receipt : Type}
    (settings : Settings) (market market' : Market)
    (polls : list (@poll_io signed_order receipt)) :
  fst (monitor_market settings market polls) = Return market' ->
  condition_id market' = condition_id market
  /\ yes_token market' = yes_token market
  /\ no_token market' = no_token market
  /\ name market' = name market
  /\ (length (price_history market')
      <= Nat.max (length (price_history market)) HISTORY_BUFFER_SIZE)%nat.
Proof.
  revert market.
  induction polls as [ | io rest IH ]; intros market; cbn [monitor_market].
  - intros [= <-]. repeat (split; [ reflexivity | ]). lia.
  - pose proof (monitor_step_identity settings market io) as Hstep.
    destruct (monitor_step settings market io) as [ [ market1 | e ] tr ];
      [ | discriminate ].
    destruct (Hstep market1 eq_refl) as (Hc & Hy & Hn & Hna & Hlen).
    specialize (IH market1).
    destruct (monitor_market settings market1 rest) as [r tr'].
    intros Hrun. destruct (IH Hrun) as (Hc' & Hy' & Hn' & Hna' & Hlen').
    rewrite Hc', Hy', Hn', Hna', <- Hc, <- Hy, <- Hn, <- Hna.
    repeat (split; [ reflexivity | ]). lia.
Qed.

Lemma run_keeps_identity_and_capacity_witness :
  exists market',
    fst (monitor_market scenario_c_settings demo_market minute_of_polls)
    = Return market'
    /\ yes_token market' = "Y"
    /\ length (price_history market') = HISTORY_BUFFER_SIZE.
Proof.
  eexists. split; [ vm_compute; reflexivity | ].
  split; [ | reflexivity ].
  apply (run_keeps_identity_and_capacity scenario_c_settings demo_market _
           minute_of_polls).
  vm_compute. reflexivity.
Defined.

(** ** Spikes need a rise *)

Lemma ctx_round_nonpos (x : Q) : x <= 0 -> Dec.ctx_round x <= 0.
Proof.
  intros H. pose proof (DecFacts.ctx_round_mono x 0 H) as Hm.
  rewrite (DecFacts.ctx_round_zero 0) in Hm by reflexivity. exact Hm.
Qed.

Lemma ctx_round_nonneg (x : Q) : 0 <= x -> 0 <= Dec.ctx_round x.
Proof.
  intros H. pose proof (DecFacts.ctx_round_mono 0 x H) as Hm.
  rewrite (DecFacts.ctx_round_zero 0) in Hm by reflexivity. exact Hm.
Qed.

(** X12.  [detect_spike] never fires on a price that is not above the
    baseline when the threshold is positive, and a spike for a threshold is
    a spike for every lower threshold. *)
Theorem spike_needs_rise
    (history : list sample) (now winning_price : Q) (winner_is_yes : bool) :
  (forall baseline_sample spike_threshold,
     head (List.filter (in_window now) history) = Some baseline_sample ->
     winning_price <= side_price winner_is_yes baseline_sample ->
     0 < spike_threshold ->
     detect_spike history now winning_price winner_is_yes spike_threshold = false)
  /\ (forall spike_threshold lower,
        lower <= spike_threshold ->
        detect_spike history now winning_price winner_is_yes spike_threshold = true ->
        detect_spike history now winning_price winner_is_yes lower = true).
Proof.
  split.
  - intros b thr Hhead Hle Hthr. rewrite detect_spike_unfold.
    destruct (List.filter (in_window now) history) as [ | first [ | second rest ] ];
      try reflexivity.
    injection Hhead as ->.
    unfold Dec.le, Dec.ge.
    destruct (Qle_bool (side_price winner_is_yes b) 0) eqn:Hb; [ reflexivity | ].
    apply Qle_bool_false in Hb. apply Qle_bool_false.
    eapply Qle_lt_trans; [ | exact Hthr ].
    apply ctx_round_nonpos.
    assert (Hsub : Dec.sub winning_price (side_price winner_is_yes b) <= 0)
      by (apply ctx_round_nonpos; lra).
    apply Qle_shift_div_r; [ exact Hb | lra ].
  - intros thr lower Hle. rewrite !detect_spike_unfold.
    destruct (List.filter (in_window now) history) as [ | first [ | second rest ] ];
      try discriminate.
    destruct (Dec.le (side_price winner_is_yes first) 0); [ discriminate | ].
    unfold Dec.ge. rewrite !Qle_bool_iff. intros H. lra.
Qed.

(** A price back at its baseline is no spike. *)
Example flat_price_no_spike :
  detect_spike [(0, 98 # 100, 2 # 100); (3, 98 # 100, 2 # 100)]
    3 (98 # 100) true (15 # 100) = false.
Proof. vm_compute. reflexivity. Qed.

(** ** Order sizing: how far the notional can be from the amount *)

Lemma ctx_round_error (x : Q) :
  0 < x ->
  Qabs (Dec.ctx_round x - x) <= (1 # 2) * 10 ^ (Dec.adjusted x - (Dec.prec - 1)).
Proof.
  intros Hx. rewrite DecFacts.ctx_round_nonzero by lra.
  set (P := 10 ^ (Dec.adjusted x - (Dec.prec - 1))).
  assert (HP : 0 < P) by apply DecFacts.pow10_pos.
  destruct (DecFacts.round_half_even_nearest (x / P)) as ([Lo Hi] & _).
  set (r := inject_Z (Dec.round_half_even (x / P))) in *.
  assert (E : x == x / P * P) by (field; lra).
  set (y := x / P) in *. clearbody r y P.
  apply Qabs_Qle_condition. rewrite E. split; nra.
Qed.

Lemma compute_order_quantity_returns (amount_usdc target_price size : Q) :
  compute_order_quantity amount_usdc target_price = Return size ->
  0 < target_price
  /\ (Z.abs (Dec.round_half_even (Dec.div amount_usdc target_price * 10000))
      < 10 ^ Dec.prec)%Z
  /\ size = inject_Z (Dec.round_half_even
                        (Dec.div amount_usdc target_price * 10000)) / 10000.
Proof.
  unfold compute_order_quantity, Dec.le, Dec.quantize4.
  destruct (Qle_bool target_price 0) eqn:Hp; [ discriminate | ].
  apply Qle_bool_false in Hp.
  destruct (Z.ltb_spec
              (Z.abs (Dec.round_half_even
                        (Dec.div amount_usdc target_price * 10000)))
              (10 ^ Dec.prec)) as [Hc | Hc]; [ | discriminate ].
  intros [= <-]. repeat split; assumption.
Qed.

(** A quotient that [quantize] accepts was rounded by the context to
    within half a ten-thousandth. *)
Lemma quotient_error_small (q : Q) :
  0 <= q ->
  (Z.abs (Dec.round_half_even (Dec.ctx_round q * 10000)) < 10 ^ Dec.prec)%Z ->
  Qabs (Dec.ctx_round q - q) <= 1 # 20000.
Proof.
  intros Hq Hc.
  destruct (Qeq_dec q 0) as [Hz | Hnz].
  - rewrite (DecFacts.ctx_round_zero q Hz).
    apply Qabs_Qle_condition. split; lra.
  - assert (Hpos : 0 < q) by lra.
    destruct (DecFacts.ctx_round_pos_bounds q Hpos) as [Lo _].
    destruct (DecFacts.round_half_even_nearest (Dec.ctx_round q * 10000))
      as ([_ Hi] & _).
    assert (Hc' : inject_Z (Dec.round_half_even (Dec.ctx_round q * 10000))
                  <= inject_Z (10 ^ Dec.prec - 1))
      by (rewrite <- Zle_Qle; lia).
    assert (Hbig : 10 ^ Dec.adjusted q < 10 ^ 24).
    { eapply Qle_lt_trans; [ exact Lo | ].
      change (10 ^ 24) with (inject_Z (10 ^ 24)).
      change (inject_Z (10 ^ Dec.prec - 1))
        with (inject_Z (10 ^ 24) * 10000 - 1) in Hc'.
      lra. }
    apply DecFacts.pow10_lt_inv in Hbig.
    pose proof (ctx_round_error q Hpos) as Herr.
    assert (Hulp : 10 ^ (Dec.adjusted q - (Dec.prec - 1)) <= 1 # 10000).
    { change (1 # 10000) with (10 ^ (-4)). apply DecFacts.pow10_le.
      unfold Dec.prec. lia. }
    eapply Qle_trans; [ exact Herr | ]. lra.
Qed.

(** The size is non-negative and within 0.0001 of the exact quotient. *)
Lemma size_near_quotient (amount_usdc target_price size : Q) :
  0 <= amount_usdc ->
  compute_order_quantity amount_usdc target_price = Return size ->
  0 < target_price
  /\ 0 <= size
  /\ Qabs (size - amount_usdc / target_price) <= 1 # 10000.
Proof.
  intros Ha Hret.
  destruct (compute_order_quantity_returns _ _ _ Hret) as (Hp & Hc & ->).
  set (q := amount_usdc / target_price).
  assert (Hq : 0 <= q).
  { apply Qle_shift_div_l; [ exact Hp | lra ]. }
  pose proof (quotient_error_small q Hq Hc) as Herr.
  pose proof (ctx_round_nonneg q Hq) as Hq'.
  change (Dec.div amount_usdc target_price) with (Dec.ctx_round q).
  destruct (DecFacts.round_half_even_nearest (Dec.ctx_round q * 10000))
    as ([Lo Hi] & _).
  assert (Hc0 : (0 <= Dec.round_half_even (Dec.ctx_round q * 10000))%Z).
  { rewrite <- (DecFacts.round_half_even_inject 0) at 1.
    apply DecFacts.round_half_even_mono. change (inject_Z 0) with 0. lra. }
  rewrite Zle_Qle in Hc0. change (inject_Z 0) with 0 in Hc0.
  set (r := inject_Z (Dec.round_half_even (Dec.ctx_round q * 10000))) in *.
  apply Qabs_Qle_condition in Herr. destruct Herr as [E1 E2].
  set (q' := Dec.ctx_round q) in *. clearbody r q' q.
  change (r / 10000) with (r * (1 # 10000)).
  split; [ exact Hp | split; [ lra | ] ].
  apply Qabs_Qle_condition. split; lra.
Qed.

(** X13.  [compute_order_quantity] refuses a target price that is not
    positive with [ValueError].  For a positive price and a non-negative
    amount, a size it returns is a non-negative multiple of 0.0001 whose
    notional, size times price, differs from the amount by at most one
    ten-thousandth of the price. *)
Theorem notional_within_a_tick (amount_usdc target_price : Q) :
  (target_price <= 0 ->
   compute_order_quantity amount_usdc target_price
   = Raise (ValueError "target_price must be positive"))
  /\ (0 <= amount_usdc ->
      forall size,
        compute_order_quantity amount_usdc target_price = Return size ->
        0 < target_price
        /\ 0 <= size
        /\ (exists c : Z, size = inject_Z c / 10000)
        /\ Qabs (size * target_price - amount_usdc)
           <= target_price * (1 # 10000)).
Proof.
  split.
  - intros Hp. unfold compute_order_quantity, Dec.le.
    apply Qle_bool_iff in Hp. rewrite Hp. reflexivity.
  - intros Ha size Hret.
    destruct (size_near_quotient _ _ _ Ha Hret) as (Hp & Hsize & Hnear).
    destruct (compute_order_quantity_returns _ _ _ Hret) as (_ & _ & Hform).
    split; [ exact Hp | split; [ exact Hsize | ] ].
    split; [ eexists; exact Hform | ].
    assert (Eq : amount_usdc == amount_usdc / target_price * target_price)
      by (field; lra).
    apply Qabs_Qle_condition in Hnear. destruct Hnear as [E1 E2].
    set (q := amount_usdc / target_price) in *. clearbody q.
    apply Qabs_Qle_condition. rewrite Eq. split; nra.
Qed.

Lemma notional_within_a_tick_witness :
  0 <= 10
  /\ compute_order_quantity 10 (98 # 100) = Return (102041 # 10000)
  /\ Qabs ((102041 # 10000) * (98 # 100) - 10) <= (98 # 100) * (1 # 10000).
Proof.
  assert (Ha : 0 <= 10) by discriminate.
  assert (Hc : compute_order_quantity 10 (98 # 100) = Return (102041 # 10000))
    by (vm_compute; reflexivity).
  split; [ exact Ha | split; [ exact Hc | ] ].
  destruct (notional_within_a_tick 10 (98 # 100)) as [_ H].
  apply (H Ha _ Hc).
Defined.

(** ** Sizing inside [snipe_buy] *)

Lemma target_price_capped (winning_price : Q) :
  target_price_of winning_price <= 9999 # 10000.
Proof.
  unfold target_price_of, Dec.min.
  destruct (Qle_bool (9999 # 10000) (Dec.add winning_price (1 # 1000))) eqn:E.
  - apply Qle_refl.
  - apply Qle_bool_false in E. lra.
Qed.

Lemma target_price_floor (winning_price : Q) :
  0 <= winning_price -> 1 # 1000 <= target_price_of winning_price.
Proof.
  intros Hw.
  assert (Hadd : 1 # 1000 <= Dec.add winning_price (1 # 1000)).
  { assert (Hfix : Dec.ctx_round (1 # 1000) == 1 # 1000)
      by (vm_compute; reflexivity).
    rewrite <- Hfix at 1. apply DecFacts.ctx_round_mono. lra. }
  unfold target_price_of, Dec.min.
  destruct (Qle_bool (9999 # 10000) (Dec.add winning_price (1 # 1000)));
    [ lra | exact Hadd ].
Qed.

Lemma sizing_succeeds (amount_usdc target_price : Q) :
  0 <= amount_usdc <= LARGE_AMOUNT ->
  1 # 1000 <= target_price ->
  exists size, compute_order_quantity amount_usdc target_price = Return size.
Proof.
  intros [Ha Hmax] Ht. unfold LARGE_AMOUNT in Hmax.
  set (bound := 100000000000000000000000 : Q).
  assert (Hq : 0 <= amount_usdc / target_price <= bound).
  { split.
    - apply Qle_shift_div_l; lra.
    - apply Qle_shift_div_r; [ lra | ]. unfold bound. lra. }
  assert (Hshares : 0 <= Dec.div amount_usdc target_price <= bound).
  { split; [ apply ctx_round_nonneg; lra | ].
    assert (Hfix : Dec.ctx_round bound == bound) by (vm_compute; reflexivity).
    rewrite <- Hfix. apply DecFacts.ctx_round_mono. lra. }
  set (shares := Dec.div amount_usdc target_price) in *.
  assert (Hc : (0 <= Dec.round_half_even (shares * 10000) <= 10 ^ 27)%Z).
  { split.
    - rewrite <- (DecFacts.round_half_even_inject 0) at 1.
      apply DecFacts.round_half_even_mono. change (inject_Z 0) with 0. lra.
    - rewrite <- (DecFacts.round_half_even_inject (10 ^ 27)) at 1.
      apply DecFacts.round_half_even_mono.
      change (inject_Z (10 ^ 27)) with (bound * 10000). lra. }
  unfold compute_order_quantity, Dec.le, Dec.quantize4. fold shares.
  replace (Qle_bool target_price 0) with false
    by (symmetry; apply Qle_bool_false; lra).
  replace (Z.abs (Dec.round_half_even (shares * 10000)) <? 10 ^ Dec.prec)%Z
    with true; [ eexists; reflexivity | ].
  symmetry. apply Z.ltb_lt. unfold Dec.prec. lia.
Qed.

(** X14.  For a winning price that is not negative the target price of a
    snipe lies between 0.001 and 0.9999, and with a configured amount
    between 0 and 10^20 USDC the sizing raises neither [ValueError] nor
    [InvalidOperation]; in dry-run mode [snipe_buy] then returns without
    an exception and without any request or sleep. *)
Theorem snipe_sizing_total {signed_order receipt : Type}
    (market : Market) (token_id : string) (winning_price : Q)
    (settings : Settings) (io : @poll_io signed_order receipt) :
  0 <= winning_price ->
  0 <= snipe_amount_usdc settings <= LARGE_AMOUNT ->
  1 # 1000 <= target_price_of winning_price <= 9999 # 10000
  /\ (exists size,
        compute_order_quantity (snipe_amount_usdc settings)
          (target_price_of winning_price) = Return size)
  /\ (dry_run settings = true ->
      snipe_buy market token_id winning_price settings io = (Return tt, [])).
Proof.
  intros Hw Ha.
  pose proof (target_price_floor winning_price Hw) as Hlo.
  pose proof (target_price_capped winning_price) as Hhi.
  destruct (sizing_succeeds _ _ Ha Hlo) as [size Hsize].
  split; [ split; assumption | ].
  split; [ exists size; exact Hsize | ].
  intros Hd. unfold snipe_buy. fold (target_price_of winning_price).
  rewrite Hsize, Hd. reflexivity.
Qed.

Lemma snipe_sizing_total_witness :
  0 <= 98 # 100
  /\ 0 <= snipe_amount_usdc dry_settings <= LARGE_AMOUNT
  /\ snipe_buy demo_market "Y" (98 # 100) dry_settings (live_poll 1003 (98 # 100))
     = (Return tt, []).
Proof.
  assert (Hw : 0 <= 98 # 100) by discriminate.
  assert (Ha : 0 <= snipe_amount_usdc dry_settings <= LARGE_AMOUNT)
    by (split; discriminate).
  split; [ exact Hw | split; [ exact Ha | ] ].
  apply (snipe_sizing_total demo_market "Y" (98 # 100) dry_settings
           (live_poll 1003 (98 # 100)) Hw Ha).
  reflexivity.
Defined.

(** ** The balance guard *)

(** X15.  [ensure_balance] returns only when [get_balances] answered and
    the available USDC is a number not below the minimum.  An answer with
    no USDC entry, or with no available field in it, counts as a balance of
    zero: the guard then raises [RuntimeError] for every positive minimum.
    A client without [get_balances] gives [RuntimeError] as well. *)
Theorem ensure_balance_spec :
  (forall call minimum,
     ensure_balance call minimum = Return tt
     <-> exists b usdc_balance,
           call = Balances b
           /\ available_usdc b = Numeric usdc_balance
           /\ minimum <= usdc_balance)
  /\ (forall b minimum,
        b !! "USDC" = None
        \/ (exists account, b !! "USDC" = Some account
                            /\ account !! "available" = None) ->
        0 < minimum ->
        ensure_balance (Balances b) minimum
        = Raise (RuntimeError "Insufficient USDC balance."))
  /\ (forall minimum, exists msg,
        ensure_balance NoGetBalances minimum = Raise (RuntimeError msg)).
Proof.
  split; [ | split ].
  - intros call minimum. split.
    + destruct call as [ | e | b ]; cbn [ensure_balance]; try discriminate.
      destruct (available_usdc b) as [ d | ] eqn:Hav; [ | discriminate ].
      destruct (Qlt_bool d minimum) eqn:Hlt; [ discriminate | ].
      intros _. exists b, d. apply Qlt_bool_false in Hlt.
      repeat split; assumption.
    + intros (b & d & -> & Hav & Hle). cbn [ensure_balance]. rewrite Hav.
      apply Qlt_bool_false in Hle. rewrite Hle. reflexivity.
  - intros b minimum Hmissing Hpos.
    assert (Hav : available_usdc b = Numeric 0).
    { unfold available_usdc.
      destruct Hmissing as [-> | (account & -> & ->)]; reflexivity. }
    cbn [ensure_balance]. rewrite Hav.
    apply Qlt_bool_true in Hpos. rewrite Hpos. reflexivity.
  - intros minimum. eexists. reflexivity.
Qed.

(** Scenario D: 5 USDC against a minimum of 10.5. *)
Example scenario_d :
  ensure_balance (Balances five_usdc) (startup_minimum 10)
  = Raise (RuntimeError "Insufficient USDC balance.").
Proof. vm_compute. reflexivity. Qed.

Lemma ulp_small (x : Q) :
  0 < x -> 10 ^ (Dec.adjusted x - (Dec.prec - 1)) <= x * (1 # 100).
Proof.
  intros Hx.
  destruct (DecFacts.adjusted_spec x) as [Lo _]; [ lra | ].
  rewrite Qabs_pos in Lo by lra.
  replace (Dec.adjusted x - (Dec.prec - 1))%Z
    with (Dec.adjusted x + - (Dec.prec - 1))%Z by lia.
  rewrite DecFacts.pow10_plus.
  assert (Hk : 10 ^ (- (Dec.prec - 1)) <= 1 # 100).
  { change (1 # 100) with (10 ^ (-2)). apply DecFacts.pow10_le.
    unfold Dec.prec. lia. }
  pose proof (DecFacts.pow10_pos (- (Dec.prec - 1))) as Hk0.
  pose proof (DecFacts.pow10_pos (Dec.adjusted x)) as He0.
  set (k := 10 ^ (- (Dec.prec - 1))) in *.
  set (e := 10 ^ Dec.adjusted x) in *. clearbody k e. nra.
Qed.

Lemma startup_minimum_margin (amount : Q) :
  0 < amount -> amount * (104 # 100) <= startup_minimum amount.
Proof.
  intros Ha. unfold startup_minimum.
  assert (Hx : 0 < amount * (105 # 100)) by lra.
  pose proof (ctx_round_error _ Hx) as Herr.
  pose proof (ulp_small _ Hx) as Hulp.
  apply Qabs_Qle_condition in Herr. destruct Herr as [E1 _].
  set (u := 10 ^ (Dec.adjusted (amount * (105 # 100)) - (Dec.prec - 1))) in *.
  set (m := Dec.ctx_round (amount * (105 # 100))) in *.
  clearbody u m. lra.
Qed.

(** X16.  The margin of the balance guard covers the sizing: when
    [ensure_balance] passes for the minimum [1.05 * amount] that [main]
    asks for, with an amount of at least 0.0025 USDC, the available balance
    is at least the notional of the order that [snipe_buy] sizes for any
    non-negative winning price. *)
Theorem guard_covers_order_notional
    (b : gmap string (gmap string price_field))
    (amount winning_price size : Q) :
  25 # 10000 <= amount ->
  0 <= winning_price ->
  ensure_balance (Balances b) (startup_minimum amount) = Return tt ->
  compute_order_quantity amount (target_price_of winning_price) = Return size ->
  exists usdc_balance,
    available_usdc b = Numeric usdc_balance
    /\ size * target_price_of winning_price <= usdc_balance.
Proof.
  intros Hamount Hw Hguard Hsize.
  cbn [ensure_balance] in Hguard.
  destruct (available_usdc b) as [ d | ]; [ | discriminate ].
  destruct (Qlt_bool d (startup_minimum amount)) eqn:Hlt; [ discriminate | ].
  apply Qlt_bool_false in Hlt.
  exists d. split; [ reflexivity | ].
  assert (Hpos : 0 < amount).
  { eapply Qlt_le_trans; [ | exact Hamount ]. reflexivity. }
  pose proof (startup_minimum_margin amount Hpos) as Hmargin.
  pose proof (target_price_capped winning_price) as Hcap.
  destruct (size_near_quotient _ _ _ (Qlt_le_weak _ _ Hpos) Hsize)
    as (Hp & _ & Hnear).
  set (t := target_price_of winning_price) in *.
  assert (Eq : amount == amount / t * t) by (field; lra).
  apply Qabs_Qle_condition in Hnear. destruct Hnear as [_ E2].
  set (q := amount / t) in *. set (m := startup_minimum amount) in *.
  clearbody q t m.
  assert (Hnotional : size * t <= amount + t * (1 # 10000)) by (rewrite Eq; nra).
  lra.
Qed.

Lemma guard_covers_order_notional_witness :
  25 # 10000 <= 10
  /\ 0 <= 979 # 1000
  /\ ensure_balance (Balances eleven_usdc) (startup_minimum 10) = Return tt
  /\ exists size,
       compute_order_quantity 10 (target_price_of (979 # 1000)) = Return size
       /\ size * target_price_of (979 # 1000) <= 11.
Proof.
  assert (Ha : 25 # 10000 <= 10) by discriminate.
  assert (Hw : 0 <= 979 # 1000) by discriminate.
  assert (Hg : ensure_balance (Balances eleven_usdc) (startup_minimum 10) = Return tt)
    by (vm_compute; reflexivity).
  split; [ exact Ha | split; [ exact Hw | split; [ exact Hg | ] ] ].
  eexists. split; [ vm_compute; reflexivity | ].
  destruct (guard_covers_order_notional eleven_usdc 10 (979 # 1000) _ Ha Hw Hg
              ltac:(vm_compute; reflexivity))
    as (d & Hd & Hle).
  injection Hd as <-. exact Hle.
Defined.

(** ** The cadence of the loop *)

Lemma sleeps_app (a b : list event) : sleeps (a ++ b) == sleeps a + sleeps b.
Proof.
  induction a as [ | ev a IH ]; cbn [app sleeps]; [ lra | ].
  destruct ev; lra.
Qed.

Lemma snipe_buy_sleeps {signed_order receipt : Type}
    (market : Market) (token : string) (price : Q) (settings : Settings)
    (io : @poll_io signed_order receipt) :
  0 <= sleeps (snd (snipe_buy market token price settings io)) <= 7.
Proof.
  assert (Hbudget : backoff_total (seq 0 MAX_RETRIES) == 7) by reflexivity.
  unfold snipe_buy.
  destruct (compute_order_quantity _ _) as [ size | e ]; [ | cbn; lra ].
  destruct (dry_run settings); [ cbn; lra | ].
  destruct (builder io _) as [ order | e ]; [ | cbn; lra ].
  pose proof (submit_order_loop_sleeps (orders io) (seq 0 MAX_RETRIES)) as H.
  unfold submit_order.
  destruct (submit_order_loop (seq 0 MAX_RETRIES) (orders io)) as [r tr].
  cbn [snd] in *. lra.
Qed.

(** X17.  The polling cadence: an iteration of the loop that does not end
    the task always finishes with the sleep of [POLL_INTERVAL_SECONDS], and
    all its sleeps together last between 0.2 and 14.2 seconds -- at most 7
    for the quote retries, at most 7 for the order retries, and the poll
    interval. *)
Theorem iteration_sleep_bounds {signed_order receipt : Type}
    (settings : Settings) (market market' : Market)
    (io : @poll_io signed_order receipt) :
  fst (monitor_step settings market io) = Return market' ->
  (exists before,
     snd (monitor_step settings market io)
     = before ++ [Sleep POLL_INTERVAL_SECONDS])
  /\ POLL_INTERVAL_SECONDS <= sleeps (snd (monitor_step settings market io))
     <= 142 # 10.
Proof.
  assert (Hbudget : backoff_total (seq 0 MAX_RETRIES) == 7) by reflexivity.
  destruct (get_prices (quotes io) market) as [fetched tr] eqn:Hq.
  pose proof (get_prices_loop_sleeps (quotes io) market (seq 0 MAX_RETRIES)) as Hs.
  fold (get_prices (quotes io) market) in Hs. rewrite Hq in Hs. cbn [snd] in Hs.
  assert (Hquiet : (exists before,
                      tr ++ [Sleep POLL_INTERVAL_SECONDS]
                      = before ++ [Sleep POLL_INTERVAL_SECONDS])
                   /\ POLL_INTERVAL_SECONDS
                      <= sleeps (tr ++ [Sleep POLL_INTERVAL_SECONDS]) <= 142 # 10).
  { split; [ exists tr; reflexivity | ].
    rewrite sleeps_app. cbn [sleeps]. unfold POLL_INTERVAL_SECONDS. lra. }
  destruct fetched as [ [ prices | ] | e ].
  - destruct (get_prices_loop_some _ _ _ _ _ Hq) as [Hyes Hno].
    destruct (lookups_succeed_intro market prices Hyes Hno) as (_ & _ & _ & Hup).
    destruct (Hup (clock_history io)) as (market1 & Hu & [[[tok price] is_yes] Hw]).
    rewrite (monitor_step_quoted settings _ _ _ _ _ _ _ _ Hq Hu Hw).
    destruct (Qlt_bool _ _); [ intros _; exact Hquiet | ].
    destruct (fires _ _ _ _ _); [ | intros _; exact Hquiet ].
    intros _. cbn [snd].
    pose proof (snipe_buy_sleeps (set_last_snipe_ts market1 (clock_now io))
                  tok price settings io) as Hsnipe.
    set (trs := snd (snipe_buy _ _ _ _ _)) in *.
    split.
    + exists (tr ++ SnipeBuy tok price (clock_now io) :: trs).
      rewrite <- app_assoc. reflexivity.
    + rewrite sleeps_app. cbn [sleeps]. rewrite sleeps_app. cbn [sleeps].
      unfold POLL_INTERVAL_SECONDS. lra.
  - unfold monitor_step. rewrite Hq. intros _. exact Hquiet.
  - unfold monitor_step. rewrite Hq. discriminate.
Qed.

Lemma iteration_sleep_bounds_witness :
  exists market',
    fst (monitor_step scenario_c_settings scenario_c_market
           (failing_poll 1003 (98 # 100))) = Return market'
    /\ sleeps (snd (monitor_step scenario_c_settings scenario_c_market
                      (failing_poll 1003 (98 # 100)))) <= 142 # 10.
Proof.
  eexists. split; [ vm_compute; reflexivity | ].
  eapply (iteration_sleep_bounds scenario_c_settings scenario_c_market).
  vm_compute. reflexivity.
Defined.
